(** * Verification of the data layer and the update handlers of greenlight

    Shallow embedding of [internal/data/movies.go] (the models of movies,
    actors and directors) and of the update and list handlers of
    [cmd/api/movies.go].

    The PostgreSQL database is modelled as a state [DB]: the rows of the three
    tables, an optional connection failure ([fault]) and the log of the
    statements the program sent ([sent]).  Each SQL statement the Go code
    sends is given its meaning by one primitive below; the Go functions are
    translated on top of these primitives in a small state monad. *)

From Stdlib Require Import ZArith List String Ascii Bool Lia Permutation Sorted.
Import ListNotations.

Local Open Scope string_scope.
Local Open Scope list_scope.
Local Open Scope Z_scope.

(* ------------------------------------------------------------------ *)
(** ** Go values *)

(** The error values the data layer can return: [sql.ErrNoRows],
    [data.ErrRecordNotFound], [data.ErrEditConflict], and any other error
    reported by the driver or the database (connection failure, constraint
    violation, overflow, timeout). *)
Inductive go_error :=
| ErrNoRows
| ErrRecordNotFound
| ErrEditConflict
| ErrDriver (msg : string).

Definition go_error_eqb (a b : go_error) : bool :=
  match a, b with
  | ErrNoRows, ErrNoRows => true
  | ErrRecordNotFound, ErrRecordNotFound => true
  | ErrEditConflict, ErrEditConflict => true
  | ErrDriver x, ErrDriver y => String.eqb x y
  | _, _ => false
  end.

(** The outcome of a statement sent to the database. *)
Inductive result (A : Type) :=
| Ok (a : A)
| Err (e : go_error).
Arguments Ok {A} a.
Arguments Err {A} e.

(** [type Movie struct]; [CreatedAt] is not modelled, so the statements
    below about a movie read back from the table compare the other fields.
    Integers ([int64] ids, [int32] year, runtime and version) are [Z]; the
    [int32] range of the version column is enforced where it is
    incremented. *)
Record Movie := mkMovie {
  Movie_ID : Z;
  Movie_Title : string;
  Movie_Year : Z;
  Movie_Runtime : Z;
  Movie_Genres : list string;
  Movie_Version : Z
}.

(** [type Actor struct] (without [CreatedAt]). *)
Record Actor := mkActor {
  Actor_ID : Z;
  Actor_Fullname : string;
  Actor_Year : Z;
  Actor_Films : list string;
  Actor_Girlfriend : string
}.

(** [type Directors struct]. *)
Record Directors := mkDirectors {
  Directors_ID : Z;
  Directors_Name : string;
  Directors_Surname : string;
  Directors_Awords : list string
}.

(** Go compares strings byte by byte; [String.compare] compares the byte
    value of each character lexicographically, a proper prefix first. *)
Definition go_str_lt (a b : string) : bool :=
  match String.compare a b with Lt => true | _ => false end.

(* ------------------------------------------------------------------ *)
(** ** The database *)

Record DB := mkDB {
  movies : list Movie;
  actor : list Actor;
  directors : list Directors;
  fault : option string;   (** the database currently fails every statement *)
  sent : list string       (** statements sent so far, latest first *)
}.

Definition set_movies (db : DB) (ms : list Movie) : DB :=
  mkDB ms db.(actor) db.(directors) db.(fault) db.(sent).
Definition set_actor (db : DB) (xs : list Actor) : DB :=
  mkDB db.(movies) xs db.(directors) db.(fault) db.(sent).
Definition log_stmt (q : string) (db : DB) : DB :=
  mkDB db.(movies) db.(actor) db.(directors) db.(fault) (q :: db.(sent)).

(** Largest value of the PostgreSQL [integer] type of [movies.version]. *)
Definition int32_max : Z := 2147483647.

(** A small state monad over [DB]. *)
Definition M (A : Type) := DB -> A * DB.
Definition ret {A} (a : A) : M A := fun db => (a, db).
Definition bind {A B} (m : M A) (k : A -> M B) : M B :=
  fun db => let (a, db') := m db in k a db'.
Notation "x <- m ;; k" := (bind m (fun x => k))
  (at level 61, m at next level, right associativity).

(* ------------------------------------------------------------------ *)
(** ** SQL statements of the data layer and their meaning *)

Definition q_update_movie : string :=
  "UPDATE movies SET title = $1, year = $2, runtime = $3, genres = $4, version = version + 1 WHERE id = $5 AND version = $6 RETURNING version".
Definition q_delete_movie : string := "DELETE FROM movies WHERE id = $1".
Definition q_get_movie : string :=
  "SELECT id, created_at, title, year, runtime, genres, version FROM movies WHERE id = $1".
Definition q_get_movie_title : string :=
  "SELECT id, created_at, title, year, runtime, genres, version FROM movies WHERE title = $1".
Definition q_update_actor : string :=
  "UPDATE actor SET fullname = $1, year = $2, films = $3, girlfriend= $4 WHERE id = $5 RETURNING girlfriend;".
Definition q_get_actor : string :=
  "SELECT id, created_at, fullname, year, films, girlfriend FROM actor WHERE id = $1".

(** [QueryRow(q_update_movie, title, year, runtime, genres, id, version)
    .Scan(&version)]: the rows with this id and this version get the new
    fields and [version + 1] (an [integer] overflow aborts the statement);
    the first returned version is scanned, no returned row is [ErrNoRows]. *)
Definition db_update_movie (title : string) (year runtime : Z)
    (genres : list string) (id version : Z) : M (result Z) :=
  fun db0 =>
    let db := log_stmt q_update_movie db0 in
    match db.(fault) with
    | Some e => (Err (ErrDriver e), db)
    | None =>
        let hit r := (Movie_ID r =? id) && (Movie_Version r =? version) in
        match find hit db.(movies) with
        | None => (Err ErrNoRows, db)
        | Some r =>
            if Movie_Version r + 1 >? int32_max
            then (Err (ErrDriver "integer out of range"), db)
            else
              let upd r := if hit r
                           then mkMovie (Movie_ID r) title year runtime genres
                                        (Movie_Version r + 1)
                           else r in
              (Ok (Movie_Version r + 1), set_movies db (map upd db.(movies)))
        end
    end.

(** [Exec(q_delete_movie, id)] followed by [RowsAffected()]: the rows with
    this id are removed and their number is returned.  (The driver's
    [RowsAffected] does not fail once [Exec] succeeded.) *)
Definition db_delete_movie (id : Z) : M (result Z) :=
  fun db0 =>
    let db := log_stmt q_delete_movie db0 in
    match db.(fault) with
    | Some e => (Err (ErrDriver e), db)
    | None =>
        let hit r := Movie_ID r =? id in
        (Ok (Z.of_nat (List.length (filter hit db.(movies)))),
         set_movies db (filter (fun r => negb (hit r)) db.(movies)))
    end.

(** [QueryRow(q_get_movie, id).Scan(...)]. *)
Definition db_get_movie (id : Z) : M (result Movie) :=
  fun db0 =>
    let db := log_stmt q_get_movie db0 in
    match db.(fault) with
    | Some e => (Err (ErrDriver e), db)
    | None =>
        match find (fun r => Movie_ID r =? id) db.(movies) with
        | Some r => (Ok r, db)
        | None => (Err ErrNoRows, db)
        end
    end.

(** [QueryRow(q_get_movie_title, title).Scan(...)]. *)
Definition db_get_movie_title (title : string) : M (result Movie) :=
  fun db0 =>
    let db := log_stmt q_get_movie_title db0 in
    match db.(fault) with
    | Some e => (Err (ErrDriver e), db)
    | None =>
        match find (fun r => String.eqb (Movie_Title r) title) db.(movies) with
        | Some r => (Ok r, db)
        | None => (Err ErrNoRows, db)
        end
    end.

(** [QueryRow(q_update_actor, fullname, year, films, girlfriend, id)
    .Scan(&girlfriend)]: unconditional update keyed on the id only. *)
Definition db_update_actor (fullname : string) (year : Z) (films : list string)
    (girlfriend : string) (id : Z) : M (result string) :=
  fun db0 =>
    let db := log_stmt q_update_actor db0 in
    match db.(fault) with
    | Some e => (Err (ErrDriver e), db)
    | None =>
        let hit r := Actor_ID r =? id in
        match find hit db.(actor) with
        | None => (Err ErrNoRows, db)
        | Some _ =>
            let upd r := if hit r
                         then mkActor (Actor_ID r) fullname year films girlfriend
                         else r in
            (Ok girlfriend, set_actor db (map upd db.(actor)))
        end
    end.

(** [QueryRow(q_get_actor, id).Scan(...)]. *)
Definition db_get_actor (id : Z) : M (result Actor) :=
  fun db0 =>
    let db := log_stmt q_get_actor db0 in
    match db.(fault) with
    | Some e => (Err (ErrDriver e), db)
    | None =>
        match find (fun r => Actor_ID r =? id) db.(actor) with
        | Some r => (Ok r, db)
        | None => (Err ErrNoRows, db)
        end
    end.

(* ------------------------------------------------------------------ *)
(** ** The models ([internal/data/movies.go]) *)

(** [func (m MovieModel) Get(id int64)], returning a movie pointer and an error. *)
Definition Get (id : Z) : M (result Movie) :=
  if id <? 1 then ret (Err ErrRecordNotFound)
  else
    r <- db_get_movie id ;;
    match r with
    | Ok mv => ret (Ok mv)
    | Err ErrNoRows => ret (Err ErrRecordNotFound)
    | Err e => ret (Err e)
    end.

(** [func (m ActorModel) GetActors(id int64)], returning an actor pointer and an error. *)
Definition GetActors (id : Z) : M (result Actor) :=
  if id <? 1 then ret (Err ErrRecordNotFound)
  else
    r <- db_get_actor id ;;
    match r with
    | Ok a => ret (Ok a)
    | Err ErrNoRows => ret (Err ErrRecordNotFound)
    | Err e => ret (Err e)
    end.

(** [func (m MovieModel) GetByTitle(title string)], returning a movie pointer and an error. *)
Definition GetByTitle (title : string) : M (result Movie) :=
  if go_str_lt title "null" then ret (Err ErrRecordNotFound)
  else
    r <- db_get_movie_title title ;;
    match r with
    | Ok mv => ret (Ok mv)
    | Err ErrNoRows => ret (Err ErrRecordNotFound)
    | Err e => ret (Err e)
    end.

(** [func (m ActorModel) UpdateActor(actor *Actor) error]: the returned
    Go value is the actor as left behind the pointer (the scan writes the
    girlfriend column back) and the error. *)
Definition UpdateActor (a : Actor) : M (Actor * option go_error) :=
  r <- db_update_actor (Actor_Fullname a) (Actor_Year a) (Actor_Films a)
                       (Actor_Girlfriend a) (Actor_ID a) ;;
  match r with
  | Ok g => ret (mkActor (Actor_ID a) (Actor_Fullname a) (Actor_Year a)
                         (Actor_Films a) g, None)
  | Err e => ret (a, Some e)
  end.

(** [func (m MovieModel) Update(movie *Movie) error]: the movie as left
    behind the pointer (the scan writes the new version into it) and the
    error. *)
Definition Update (mv : Movie) : M (Movie * option go_error) :=
  r <- db_update_movie (Movie_Title mv) (Movie_Year mv) (Movie_Runtime mv)
                       (Movie_Genres mv) (Movie_ID mv) (Movie_Version mv) ;;
  match r with
  | Ok v => ret (mkMovie (Movie_ID mv) (Movie_Title mv) (Movie_Year mv)
                         (Movie_Runtime mv) (Movie_Genres mv) v, None)
  | Err ErrNoRows => ret (mv, Some ErrEditConflict)
  | Err e => ret (mv, Some e)
  end.

(** [func (m MovieModel) Delete(id int64) error]. *)
Definition Delete (id : Z) : M (option go_error) :=
  if id <? 1 then ret (Some ErrRecordNotFound)
  else
    r <- db_delete_movie id ;;
    match r with
    | Err e => ret (Some e)
    | Ok rowsAffected =>
        if rowsAffected =? 0 then ret (Some ErrRecordNotFound) else ret None
    end.

(* ------------------------------------------------------------------ *)
(** ** The update handlers ([cmd/api/movies.go]) *)

(** Modelled from the spec: the response helpers of the application
    ([notFoundResponse], [badRequestResponse], [editConflictResponse],
    [serverErrorResponse], in a file of the repository that is not part of
    the sources read here) answer with the status codes of the spec's
    section 6: 404 for NotFound, 400 for a bad request, 409 for EditConflict
    and 500 for a server error.  A successful [writeJSON] answers 200. *)
Definition notFoundResponse : Z := 404.
Definition badRequestResponse : Z := 400.
Definition editConflictResponse : Z := 409.
Definition serverErrorResponse : Z := 500.
Definition statusOK : Z := 200.

(** Other requests committed while a handler runs, between its read and
    its write. *)
Definition interleave (other : DB -> DB) : M unit := fun db => (tt, other db).

(** The decoded JSON body of [updateMovieHandler]. *)
Record MovieInput := mkMovieInput {
  in_Title : string;
  in_Year : Z;
  in_Runtime : Z;
  in_Genres : list string
}.

(** [updateMovieHandler]: [idp] is the result of [readIDParam] ([None] on
    error), [input] the result of [readJSON] ([None] on error). *)
Definition updateMovieHandler (idp : option Z) (input : option MovieInput)
    (other : DB -> DB) : M Z :=
  match idp with
  | None => ret notFoundResponse
  | Some id =>
      r <- Get id ;;
      match r with
      | Err ErrRecordNotFound => ret notFoundResponse
      | Err _ => ret serverErrorResponse
      | Ok mv =>
          match input with
          | None => ret badRequestResponse
          | Some i =>
              _ <- interleave other ;;
              res <- Update (mkMovie (Movie_ID mv) (in_Title i) (in_Year i)
                                     (in_Runtime i) (in_Genres i)
                                     (Movie_Version mv)) ;;
              match snd res with
              | Some _ => ret serverErrorResponse
              | None => ret statusOK
              end
          end
      end
  end.

(** The decoded JSON body of [updateMovieeHandler]: absent keys are [nil]
    pointers, a [nil] genres slice is [None]. *)
Record MoviePatch := mkMoviePatch {
  p_Title : option string;
  p_Year : option Z;
  p_Runtime : option Z;
  p_Genres : option (list string)
}.

Definition opt_or {A} (o : option A) (d : A) : A :=
  match o with Some x => x | None => d end.

(** [updateMovieeHandler]. *)
Definition updateMovieeHandler (idp : option Z) (input : option MoviePatch)
    (other : DB -> DB) : M Z :=
  match idp with
  | None => ret notFoundResponse
  | Some id =>
      r <- Get id ;;
      match r with
      | Err ErrEditConflict => ret editConflictResponse
      | Err _ => ret serverErrorResponse
      | Ok mv =>
          match input with
          | None => ret badRequestResponse
          | Some p =>
              _ <- interleave other ;;
              res <- Update (mkMovie (Movie_ID mv)
                                     (opt_or (p_Title p) (Movie_Title mv))
                                     (opt_or (p_Year p) (Movie_Year mv))
                                     (opt_or (p_Runtime p) (Movie_Runtime mv))
                                     (opt_or (p_Genres p) (Movie_Genres mv))
                                     (Movie_Version mv)) ;;
              match snd res with
              | Some _ => ret serverErrorResponse
              | None => ret statusOK
              end
          end
      end
  end.

(** The decoded JSON body of [updateActorHandler]. *)
Record ActorInput := mkActorInput {
  ia_Fullname : string;
  ia_Year : Z;
  ia_Films : list string;
  ia_Girlfriend : string
}.

(** [updateActorHandler]. *)
Definition updateActorHandler (idp : option Z) (input : option ActorInput)
    (other : DB -> DB) : M Z :=
  match idp with
  | None => ret notFoundResponse
  | Some id =>
      r <- GetActors id ;;
      match r with
      | Err ErrRecordNotFound => ret notFoundResponse
      | Err _ => ret serverErrorResponse
      | Ok a =>
          match input with
          | None => ret badRequestResponse
          | Some i =>
              _ <- interleave other ;;
              res <- UpdateActor (mkActor (Actor_ID a) (ia_Fullname i)
                                          (ia_Year i) (ia_Films i)
                                          (ia_Girlfriend i)) ;;
              match snd res with
              | Some _ => ret serverErrorResponse
              | None => ret statusOK
              end
          end
      end
  end.

(** [n + 1] successive calls of [Delete id], with their errors. *)
Fixpoint delete_repeat (n : nat) (id : Z) : M (list (option go_error)) :=
  match n with
  | O => e <- Delete id ;; ret [e]
  | S k => e <- Delete id ;; es <- delete_repeat k id ;; ret (e :: es)
  end.

(* ------------------------------------------------------------------ *)
(** ** Sanity checks on small databases *)

Definition dune : Movie := mkMovie 1 "Dune" 2021 155 ["sci-fi"] 1.
Definition db_dune : DB := mkDB [dune] [] [] None [].

Example update_dune_ok :
  fst (Update dune db_dune) = (mkMovie 1 "Dune" 2021 155 ["sci-fi"] 2, None).
Proof. reflexivity. Qed.

Example update_dune_stale :
  snd (fst (Update dune (snd (Update dune db_dune)))) = Some ErrEditConflict.
Proof. reflexivity. Qed.

Example delete_twice :
  fst (delete_repeat 1 1 db_dune) = [None; Some ErrRecordNotFound].
Proof. reflexivity. Qed.

Example get_by_title_dune :
  fst (GetByTitle "Dune" db_dune) = Err ErrRecordNotFound.
Proof. reflexivity. Qed.

(* ------------------------------------------------------------------ *)
(** ** Lemmas on the statements *)

Lemma NoDup_map_inj {A B} (f : A -> B) (l : list A) (x y : A) :
  NoDup (map f l) -> In x l -> In y l -> f x = f y -> x = y.
Proof.
  induction l as [|a l IH]; simpl; intros Hnd Hx Hy Hf; [contradiction|].
  inversion Hnd as [|? ? Hnotin Hnd']; subst.
  destruct Hx as [<-|Hx], Hy as [<-|Hy]; auto.
  - exfalso. apply Hnotin. rewrite Hf. now apply in_map.
  - exfalso. apply Hnotin. rewrite <- Hf. now apply in_map.
Qed.

Lemma find_none_Forall {A} (f : A -> bool) (l : list A) :
  find f l = None <-> Forall (fun x => f x = false) l.
Proof.
  induction l as [|a l IH]; simpl; [split; auto|].
  destruct (f a) eqn:Ha; split; intro H.
  - discriminate.
  - inversion H; congruence.
  - constructor; [assumption | now apply IH].
  - inversion H; now apply IH.
Qed.

Lemma filter_all_false {A} (f : A -> bool) (l : list A) :
  Forall (fun x => f x = false) l -> filter f l = [].
Proof.
  induction 1 as [|a l Ha _ IH]; simpl; [reflexivity|]. now rewrite Ha.
Qed.

Lemma filter_negb_all_false {A} (f : A -> bool) (l : list A) :
  Forall (fun x => f x = false) l -> filter (fun x => negb (f x)) l = l.
Proof.
  induction 1 as [|a l Ha _ IH]; simpl; [reflexivity|]. now rewrite Ha, IH.
Qed.

Lemma Forall_filter_negb {A} (f : A -> bool) (l : list A) :
  Forall (fun x => f x = false) (filter (fun x => negb (f x)) l).
Proof.
  induction l as [|a l IH]; simpl; [constructor|].
  destruct (f a) eqn:Ha; simpl; [assumption | constructor; assumption].
Qed.

Lemma filter_nil_Forall {A} (f : A -> bool) (l : list A) :
  filter f l = [] -> Forall (fun x => f x = false) l.
Proof.
  induction l as [|a l IH]; simpl; [constructor|].
  destruct (f a) eqn:Ha; [discriminate|]. intro H. constructor; auto.
Qed.

Lemma Forall_neq_id (l : list Movie) (id : Z) :
  Forall (fun r => Movie_ID r <> id) l <->
  Forall (fun r => (Movie_ID r =? id) = false) l.
Proof.
  split; intro H; eapply Forall_impl; try exact H; simpl; intros r Hr.
  - now apply Z.eqb_neq.
  - now apply Z.eqb_neq.
Qed.

(** Statements never change the [fault] of the database. *)
Lemma Delete_fault (id : Z) (db : DB) : fault (snd (Delete id db)) = fault db.
Proof.
  unfold Delete, bind, db_delete_movie, ret, log_stmt.
  destruct (id <? 1); [reflexivity|]. simpl.
  destruct (fault db); simpl; [reflexivity|].
  destruct (Z.of_nat _ =? 0); reflexivity.
Qed.

(** After a call of [Delete id] on a working database no row has this id. *)
Lemma Delete_absent (id : Z) (db : DB) :
  fault db = None -> 1 <= id ->
  Forall (fun r => Movie_ID r <> id) (movies (snd (Delete id db))).
Proof.
  intros Hf Hid. unfold Delete.
  replace (id <? 1) with false by (symmetry; apply Z.ltb_ge; lia).
  unfold bind, db_delete_movie, ret, log_stmt; simpl. rewrite Hf; simpl.
  apply Forall_neq_id.
  destruct (Z.of_nat _ =? 0); apply Forall_filter_negb.
Qed.

Lemma db_update_movie_not_found t y ru g id v db :
  fst (db_update_movie t y ru g id v db) <> Err ErrRecordNotFound.
Proof.
  unfold db_update_movie, log_stmt, set_movies; simpl.
  destruct (fault db); simpl; [discriminate|].
  destruct (find _ _); simpl; [|discriminate].
  destruct (_ >? int32_max); simpl; discriminate.
Qed.

Ltac unfold_update :=
  unfold Update, bind, ret, db_update_movie, log_stmt, set_movies in *; simpl in *.

(* ------------------------------------------------------------------ *)
(** ** Optimistic concurrency of [MovieModel.Update] *)

(** C1: when no stored movie has both the id and the version of the movie
    passed to [Update] (its version changed or it was deleted), [Update]
    returns [ErrEditConflict] (not [ErrRecordNotFound], not success) and
    changes no row; every other error of the statement is returned
    unchanged; [Update] never returns [ErrRecordNotFound], and it succeeds
    only when a stored row has both the id and the version. *)
Theorem Update_edit_conflict (db : DB) (mv : Movie) :
  (fault db = None ->
   Forall (fun r => Movie_ID r <> Movie_ID mv \/
                    Movie_Version r <> Movie_Version mv) (movies db) ->
   snd (fst (Update mv db)) = Some ErrEditConflict /\
   movies (snd (Update mv db)) = movies db) /\
  (forall e,
     fst (db_update_movie (Movie_Title mv) (Movie_Year mv) (Movie_Runtime mv)
            (Movie_Genres mv) (Movie_ID mv) (Movie_Version mv) db) = Err e ->
     e <> ErrNoRows ->
     snd (fst (Update mv db)) = Some e) /\
  snd (fst (Update mv db)) <> Some ErrRecordNotFound /\
  (snd (fst (Update mv db)) = None ->
   exists r, In r (movies db) /\ Movie_ID r = Movie_ID mv /\
             Movie_Version r = Movie_Version mv).
Proof.
  split; [|split; [|split]].
  - intros Hf Hall. unfold_update. rewrite Hf.
    assert (Hn : find (fun r => (Movie_ID r =? Movie_ID mv) &&
                                (Movie_Version r =? Movie_Version mv))
                      (movies db) = None).
    { apply find_none_Forall. eapply Forall_impl; [|exact Hall].
      simpl. intros r [H|H]; apply andb_false_iff;
        [left | right]; now apply Z.eqb_neq. }
    rewrite Hn. simpl. auto.
  - intros e He Hne. unfold Update, bind, ret.
    destruct (db_update_movie _ _ _ _ _ _ db) as [res db'].
    simpl in He. subst res. destruct e; simpl; congruence.
  - pose proof (db_update_movie_not_found (Movie_Title mv) (Movie_Year mv)
                  (Movie_Runtime mv) (Movie_Genres mv) (Movie_ID mv)
                  (Movie_Version mv) db) as Hnf.
    unfold Update, bind, ret.
    destruct (db_update_movie _ _ _ _ _ _ db) as [res db'].
    simpl in Hnf. destruct res as [v|[| | |msg]]; simpl; congruence.
  - unfold_update.
    destruct (fault db); simpl; [discriminate|].
    destruct (find _ _) as [r|] eqn:Hfind; simpl; [|discriminate].
    destruct (_ >? int32_max); simpl; [discriminate|]. intros _.
    apply find_some in Hfind as [Hin Hhit].
    apply andb_true_iff in Hhit as [H1 H2].
    exists r. repeat split; [assumption | now apply Z.eqb_eq | now apply Z.eqb_eq].
Qed.

(** C2: when [Update] succeeds (on a table whose ids are unique, as the
    primary key makes them), a stored row had the id and the version of the
    movie; the returned movie carries that version plus one; and the stored
    row with this id is now exactly the returned movie, so its version
    counter went up by exactly one. *)
Theorem Update_success_version (db : DB) (mv mv' : Movie) (db' : DB) :
  NoDup (map Movie_ID (movies db)) ->
  Update mv db = ((mv', None), db') ->
  Movie_Version mv' = Movie_Version mv + 1 /\
  mv' = mkMovie (Movie_ID mv) (Movie_Title mv) (Movie_Year mv)
                (Movie_Runtime mv) (Movie_Genres mv) (Movie_Version mv + 1) /\
  (exists r, In r (movies db) /\ Movie_ID r = Movie_ID mv /\
             Movie_Version r = Movie_Version mv) /\
  In mv' (movies db') /\
  (forall r', In r' (movies db') -> Movie_ID r' = Movie_ID mv -> r' = mv').
Proof.
  intros Hnd H. unfold_update.
  destruct (fault db); simpl in H; [discriminate|].
  destruct (find _ _) as [r|] eqn:Hfind; simpl in H; [|discriminate].
  destruct (_ >? int32_max); simpl in H; [discriminate|].
  injection H as <- <-.
  apply find_some in Hfind as [Hin Hhit].
  apply andb_true_iff in Hhit as [H1 H2].
  apply Z.eqb_eq in H1. apply Z.eqb_eq in H2. rewrite H2.
  split; [reflexivity|]. split; [reflexivity|].
  split; [exists r; auto|]. simpl. split.
  - apply in_map_iff. exists r. split; [|assumption].
    rewrite H1, H2, !Z.eqb_refl. reflexivity.
  - intros r' Hr' Hid. apply in_map_iff in Hr' as [x [<- Hx]].
    destruct ((Movie_ID x =? Movie_ID mv) && (Movie_Version x =? Movie_Version mv))
      eqn:Hhx.
    + apply andb_true_iff in Hhx as [E1 E2].
      apply Z.eqb_eq in E1. apply Z.eqb_eq in E2. now rewrite E1, E2.
    + exfalso. assert (x = r) as ->.
      { apply (NoDup_map_inj Movie_ID (movies db)); auto. congruence. }
      rewrite H1, H2, !Z.eqb_refl in Hhx. discriminate.
Qed.

Lemma Update_success_version_witness :
  NoDup (map Movie_ID (movies db_dune)) /\
  Update dune db_dune =
    ((mkMovie 1 "Dune" 2021 155 ["sci-fi"] 2, None), snd (Update dune db_dune)) /\
  Movie_Version (mkMovie 1 "Dune" 2021 155 ["sci-fi"] 2) = Movie_Version dune + 1.
Proof.
  assert (Hnd : NoDup (map Movie_ID (movies db_dune)))
    by (constructor; [simpl; tauto | constructor]).
  split; [exact Hnd|]. split; [reflexivity|].
  exact (proj1 (Update_success_version db_dune dune
                  (mkMovie 1 "Dune" 2021 155 ["sci-fi"] 2)
                  (snd (Update dune db_dune)) Hnd eq_refl)).
Defined.

(* ------------------------------------------------------------------ *)
(** ** [MovieModel.Delete] *)

(** The condition under which [Delete id] reports [ErrRecordNotFound]:
    the id is below 1, or the database works and holds no row with it. *)
Definition delete_misses (db : DB) (id : Z) : Prop :=
  id < 1 \/ (fault db = None /\ Forall (fun r => Movie_ID r <> id) (movies db)).

Lemma Delete_misses_step (db : DB) (id : Z) :
  delete_misses db id ->
  fst (Delete id db) = Some ErrRecordNotFound /\ delete_misses (snd (Delete id db)) id.
Proof.
  intros Hm. unfold Delete.
  destruct (id <? 1) eqn:Hlt; [split; [reflexivity | exact Hm]|].
  destruct Hm as [Hm|[Hf Hall]]; [apply Z.ltb_lt in Hm; congruence|].
  unfold bind, ret, db_delete_movie, log_stmt, set_movies; simpl. rewrite Hf. simpl.
  apply Forall_neq_id in Hall.
  rewrite (filter_all_false _ _ Hall). simpl.
  split; [reflexivity|]. right. simpl. split; [reflexivity|].
  rewrite (filter_negb_all_false _ _ Hall). now apply Forall_neq_id.
Qed.

Lemma delete_repeat_misses (n : nat) (db : DB) (id : Z) :
  delete_misses db id ->
  fst (delete_repeat n id db) = repeat (Some ErrRecordNotFound) (S n).
Proof.
  revert db. induction n as [|n IH]; intros db Hm;
    destruct (Delete_misses_step db id Hm) as [Hr Hm'];
    simpl; unfold bind, ret.
  - destruct (Delete id db) as [e db']. simpl in *. now subst e.
  - destruct (Delete id db) as [e db'] eqn:E. simpl in *. subst e.
    specialize (IH db' Hm').
    destruct (delete_repeat n id db') as [es db'']. simpl in *. now subst es.
Qed.

(** C7: [Delete id] returns [ErrRecordNotFound] exactly when [id < 1] or
    the delete statement ran and removed no row; when [id < 1] nothing is
    sent and the database is unchanged; on a working database, deleting an
    id that is absent returns [ErrRecordNotFound] on the first and every
    later call, and after any first call every later call does too. *)
Theorem Delete_not_found (db : DB) (id : Z) (n : nat) :
  (fst (Delete id db) = Some ErrRecordNotFound <->
   id < 1 \/ (fault db = None /\ Forall (fun r => Movie_ID r <> id) (movies db))) /\
  (id < 1 -> Delete id db = (Some ErrRecordNotFound, db)) /\
  (fault db = None -> Forall (fun r => Movie_ID r <> id) (movies db) ->
   fst (delete_repeat n id db) = repeat (Some ErrRecordNotFound) (S n)) /\
  (fault db = None ->
   fst (delete_repeat n id (snd (Delete id db))) =
     repeat (Some ErrRecordNotFound) (S n)).
Proof.
  split; [|split; [|split]].
  - split.
    + unfold Delete. destruct (id <? 1) eqn:Hlt.
      * intros _. left. now apply Z.ltb_lt.
      * unfold bind, ret, db_delete_movie, log_stmt; simpl.
        destruct (fault db) eqn:Hf; simpl; [discriminate|].
        destruct (Z.of_nat _ =? 0) eqn:Hz; [|discriminate]. intros _.
        right. split; [reflexivity|]. apply Forall_neq_id.
        apply filter_nil_Forall. apply Z.eqb_eq in Hz.
        destruct (filter _ _); [reflexivity | simpl in Hz; lia].
    + intro Hm. exact (proj1 (Delete_misses_step db id Hm)).
  - intro Hlt. unfold Delete. apply Z.ltb_lt in Hlt. now rewrite Hlt.
  - intros Hf Hall. apply delete_repeat_misses. right. auto.
  - intros Hf. apply delete_repeat_misses.
    destruct (Z_lt_le_dec id 1) as [Hlt|Hge]; [now left|].
    right. split; [now rewrite Delete_fault | now apply Delete_absent].
Qed.

(* ------------------------------------------------------------------ *)
(** ** [MovieModel.GetByTitle] *)

(** C9: a title that Go orders below ["null"] gets [ErrRecordNotFound]
    without any statement being sent, whatever the table holds (a stored
    movie with that very title included); any other title is looked up in
    the database. *)
Theorem GetByTitle_below_null (db : DB) (title : string) :
  (go_str_lt title "null" = true ->
   GetByTitle title db = (Err ErrRecordNotFound, db)) /\
  (go_str_lt title "null" = false ->
   sent (snd (GetByTitle title db)) = q_get_movie_title :: sent db /\
   (fault db = None ->
    forall mv, find (fun r => String.eqb (Movie_Title r) title) (movies db) = Some mv ->
    fst (GetByTitle title db) = Ok mv)).
Proof.
  split.
  - intro H. unfold GetByTitle. now rewrite H.
  - intro H. unfold GetByTitle. rewrite H.
    unfold bind, ret, db_get_movie_title, log_stmt; simpl. split.
    + destruct (fault db); simpl; [reflexivity|].
      destruct (find _ _); reflexivity.
    + intros Hf mv Hfind. rewrite Hf. simpl. now rewrite Hfind.
Qed.

Lemma GetByTitle_below_null_witness :
  go_str_lt "Dune" "null" = true /\
  GetByTitle "Dune" db_dune = (Err ErrRecordNotFound, db_dune) /\
  In "Dune" (map Movie_Title (movies db_dune)).
Proof.
  split; [reflexivity|]. split; [|simpl; auto].
  apply (proj1 (GetByTitle_below_null db_dune "Dune")). reflexivity.
Defined.

(* ------------------------------------------------------------------ *)
(** ** [ActorModel.UpdateActor] *)

Lemma UpdateActor_missing (db : DB) (a : Actor) :
  fault db = None ->
  Forall (fun r => Actor_ID r <> Actor_ID a) (actor db) ->
  UpdateActor a db = ((a, Some ErrNoRows), log_stmt q_update_actor db).
Proof.
  intros Hf Hall.
  unfold UpdateActor, bind, ret, db_update_actor, log_stmt; simpl. rewrite Hf.
  replace (find _ (actor db)) with (@None Actor); [reflexivity|].
  symmetry. apply find_none_Forall.
  eapply Forall_impl; [|exact Hall]. simpl. intros r Hr. now apply Z.eqb_neq.
Qed.

(** C10: on a working database holding no actor with the id of the actor
    passed to [UpdateActor], the statement (keyed on the id only, with no
    version) finds no row and [UpdateActor] returns the driver's
    [ErrNoRows] itself, neither [ErrRecordNotFound] nor [ErrEditConflict],
    with the actor table unchanged; [updateActorHandler], whose update meets
    such a database after its read, answers with a server error. *)
Theorem UpdateActor_no_row (db : DB) (a : Actor) :
  fault db = None ->
  Forall (fun r => Actor_ID r <> Actor_ID a) (actor db) ->
  snd (fst (UpdateActor a db)) = Some ErrNoRows /\
  actor (snd (UpdateActor a db)) = actor db /\
  (forall (id : Z) (i : ActorInput) (other : DB -> DB) (db0 db1 : DB) (a0 : Actor),
     GetActors id db0 = (Ok a0, db1) -> other db1 = db ->
     Actor_ID a0 = Actor_ID a ->
     fst (updateActorHandler (Some id) (Some i) other db0) = serverErrorResponse).
Proof.
  intros Hf Hall.
  rewrite (UpdateActor_missing db a Hf Hall). split; [reflexivity|].
  split; [reflexivity|].
  intros id i other db0 db1 a0 HG Ho Hid.
  unfold updateActorHandler, bind. rewrite HG. unfold interleave. rewrite Ho.
  rewrite UpdateActor_missing; [reflexivity | exact Hf |]. simpl. now rewrite Hid.
Qed.

Definition db_actor : DB :=
  mkDB [] [mkActor 1 "Keanu Reeves" 1964 ["The Matrix"] "none"] [] None [].
Definition delete_all_actors (db : DB) : DB := set_actor db [].

Lemma UpdateActor_no_row_witness :
  snd (fst (UpdateActor (mkActor 1 "Keanu Reeves" 1964 ["John Wick"] "none")
                        (delete_all_actors (snd (GetActors 1 db_actor)))))
    = Some ErrNoRows /\
  fst (updateActorHandler (Some 1)
         (Some (mkActorInput "Keanu Reeves" 1964 ["John Wick"] "none"))
         delete_all_actors db_actor) = serverErrorResponse.
Proof.
  destruct (UpdateActor_no_row (delete_all_actors (snd (GetActors 1 db_actor)))
              (mkActor 1 "Keanu Reeves" 1964 ["John Wick"] "none")
              eq_refl (Forall_nil _)) as [H1 [_ H3]].
  split; [exact H1|].
  apply (H3 1 _ delete_all_actors db_actor (snd (GetActors 1 db_actor))
            (mkActor 1 "Keanu Reeves" 1964 ["The Matrix"] "none"));
    reflexivity.
Defined.

(* ------------------------------------------------------------------ *)
(** ** Status codes of the movie update handlers *)

Definition set_fault (e : string) (db : DB) : DB :=
  mkDB db.(movies) db.(actor) db.(directors) (Some e) db.(sent).

(** Another request updating Dune between the handler's read and write. *)
Definition concurrent_update (db : DB) : DB := snd (Update dune db).

Definition dune_input : MovieInput := mkMovieInput "Dune" 2021 156 ["sci-fi"].
Definition dune_patch : MoviePatch := mkMoviePatch None None (Some 156) None.

(** C8 (the handlers at a failing input): when another request updates
    Dune between the read and the write of [updateMovieHandler] or
    [updateMovieeHandler], [Update] returns [ErrEditConflict], and both
    handlers answer 500, not 409; a storage failure at the same point also
    gets 500, so the two errors are not told apart. *)
Theorem update_handlers_conflict_500 :
  snd (fst (Update dune (concurrent_update db_dune))) = Some ErrEditConflict /\
  fst (updateMovieHandler (Some 1) (Some dune_input) concurrent_update db_dune)
    = serverErrorResponse /\
  fst (updateMovieeHandler (Some 1) (Some dune_patch) concurrent_update db_dune)
    = serverErrorResponse /\
  fst (updateMovieHandler (Some 1) (Some dune_input)
         (set_fault "connection refused") db_dune) = serverErrorResponse /\
  fst (updateMovieeHandler (Some 1) (Some dune_patch)
         (set_fault "connection refused") db_dune) = serverErrorResponse /\
  serverErrorResponse <> editConflictResponse.
Proof. vm_compute. repeat split; discriminate. Qed.

(* ------------------------------------------------------------------ *)
(** ** Filters, and the list queries of [GetAll] and [GetAllDirectors] *)

(** [type Filters struct] (its fields as the handlers fill them). *)
Record Filters := mkFilters {
  Page : Z;
  PageSize : Z;
  Sort : string;
  SortSafelist : list string
}.

(** Modelled from the spec (section 4.1): the methods [limit], [offset],
    [sortColumn] and [sortDirection] of [Filters], and the validation of a
    filter specification, live in a file of the repository that is not part
    of the sources read here.  [limit = pageSize],
    [offset = (page-1) * pageSize], the sort column is the sort key with a
    leading ["-"] stripped, the direction is ["DESC"] for a key prefixed
    with ["-"] and ["ASC"] otherwise; a valid specification has
    [page >= 1], [1 <= pageSize <= 100] and its sort key in the safelist. *)
Definition limit (f : Filters) : Z := PageSize f.
Definition offset (f : Filters) : Z := (Page f - 1) * PageSize f.
Definition sortColumn (f : Filters) : string :=
  match Sort f with
  | String "-"%char rest => rest
  | s => s
  end.
Definition sortDirection (f : Filters) : string :=
  match Sort f with
  | String "-"%char _ => "DESC"
  | _ => "ASC"
  end.
Definition max_page_size : Z := 100.
Definition ValidateFilters (f : Filters) : bool :=
  (1 <=? Page f) && (1 <=? PageSize f) && (PageSize f <=? max_page_size) &&
  existsb (String.eqb (Sort f)) (SortSafelist f).

(** A Go [[]string]: [None] is the [nil] slice, [Some xs] a non-nil slice
    (possibly empty). *)
Definition go_strings : Type := option (list string).

(** Values bound to the placeholders of a statement. *)
Inductive sql_arg :=
| ArgText (s : string)              (** a Go [string] *)
| ArgArray (xs : go_strings)        (** [pq.Array] of a [[]string]: SQL
                                        [NULL] for a [nil] slice *)
| ArgInt (n : Z).                   (** a Go [int] *)

Definition nl : string := String (Ascii.ascii_of_nat 10) EmptyString.

(** The format string of [GetAll] cut at its two [%s] verbs:
    [getAll_fmt_head ++ "%s" ++ " " ++ "%s" ++ fmt_tail]. *)
Definition getAll_fmt_head : string :=
  (nl ++ "SELECT id, created_at, title, year, runtime, genres, version" ++ nl ++
   "FROM movies" ++ nl ++
   "WHERE (to_tsvector('simple', title) @@ plainto_tsquery('simple', $1) OR $1 = '') AND (genres @> $2 OR $2 = '{}')" ++ nl ++
   "ORDER BY ")%string.
Definition fmt_tail : string := (", id ASC" ++ nl ++ "LIMIT $3 OFFSET $4")%string.

(** The format string of [GetAllDirectors], cut the same way. *)
Definition getAllDirectors_fmt_head : string :=
  (nl ++ "SELECT id, name, surname, awords" ++ nl ++
   "FROM directors" ++ nl ++
   "WHERE (to_tsvector('simple', name) @@ plainto_tsquery('simple', $1) OR $1 = '') AND (awords @> $2 OR $2 = '{}')" ++ nl ++
   "ORDER BY ")%string.

(** [fmt.Sprintf(head + "%s %s" + tail, a, b)]. *)
Definition sprintf_ss (head tail a b : string) : string :=
  (head ++ a ++ " " ++ b ++ tail)%string.

(** The statement [GetAll] sends: the query text and the bound arguments. *)
Definition getAll_stmt (title : string) (genres : go_strings) (f : Filters)
    : string * list sql_arg :=
  (sprintf_ss getAll_fmt_head fmt_tail (sortColumn f) (sortDirection f),
   [ArgText title; ArgArray genres; ArgInt (limit f); ArgInt (offset f)]).

(** The statement [GetAllDirectors] sends ([surname] is not used). *)
Definition getAllDirectors_stmt (name surname : string) (awords : go_strings)
    (f : Filters) : string * list sql_arg :=
  (sprintf_ss getAllDirectors_fmt_head fmt_tail (sortColumn f) (sortDirection f),
   [ArgText name; ArgArray awords; ArgInt (limit f); ArgInt (offset f)]).

(** The sort keys of an [ORDER BY] clause, and their text. *)
Definition render_order (keys : list (string * string)) : string :=
  String.concat ", " (map (fun '(c, d) => (c ++ " " ++ d)%string) keys).

Definition list_order_keys (f : Filters) : list (string * string) :=
  [(sortColumn f, sortDirection f); ("id", "ASC")].

Lemma string_app_assoc (a b c : string) :
  (a ++ (b ++ c))%string = ((a ++ b) ++ c)%string.
Proof. induction a as [|x a IH]; simpl; [reflexivity | now rewrite IH]. Qed.

(** The text after [ORDER BY] in both list queries is the rendering of
    [list_order_keys]. *)
Lemma sprintf_order_keys (head : string) (f : Filters) :
  sprintf_ss head fmt_tail (sortColumn f) (sortDirection f) =
  (head ++ render_order (list_order_keys f) ++ nl ++ "LIMIT $3 OFFSET $4")%string.
Proof.
  unfold sprintf_ss, render_order, list_order_keys, fmt_tail. simpl.
  f_equal. rewrite <- !string_app_assoc. reflexivity.
Qed.

(* ------------------------------------------------------------------ *)
(** ** What the database does with a list query *)

(** SQL's three-valued booleans. *)
Inductive sqlbool := STrue | SFalse | SNull.

Definition sql_or (a b : sqlbool) : sqlbool :=
  match a, b with
  | STrue, _ | _, STrue => STrue
  | SFalse, SFalse => SFalse
  | _, _ => SNull
  end.
Definition sql_and (a b : sqlbool) : sqlbool :=
  match a, b with
  | SFalse, _ | _, SFalse => SFalse
  | STrue, STrue => STrue
  | _, _ => SNull
  end.
Definition sql_of_bool (b : bool) : sqlbool := if b then STrue else SFalse.
Definition sql_is_true (b : sqlbool) : bool :=
  match b with STrue => true | _ => false end.

(** [col @> arg] on text arrays: every element of [arg] occurs in [col]. *)
Definition array_contains (col arg : list string) : bool :=
  forallb (fun x => existsb (String.eqb x) col) arg.
(** [arg = '{}']. *)
Definition array_is_empty (arg : list string) : bool :=
  match arg with [] => true | _ => false end.

(** The same two tests on a bound argument: [NULL] when the argument is
    [NULL] (a comparison with [NULL] is neither true nor false). *)
Definition sql_array_contains (col : list string) (arg : go_strings) : sqlbool :=
  match arg with
  | None => SNull
  | Some xs => sql_of_bool (array_contains col xs)
  end.
Definition sql_array_is_empty (arg : go_strings) : sqlbool :=
  match arg with
  | None => SNull
  | Some xs => sql_of_bool (array_is_empty xs)
  end.

Section Where.
(** [to_tsvector('simple', col) @@ plainto_tsquery('simple', q)]: the
    full-text match of the database, left abstract. *)
Variable ts_match : string -> string -> sqlbool.

(** The [WHERE] clause of [GetAll] with [$1 = t] and [$2 = g]. *)
Definition movie_where (t : string) (g : go_strings) (r : Movie) : sqlbool :=
  sql_and (sql_or (ts_match (Movie_Title r) t) (sql_of_bool (String.eqb t "")))
          (sql_or (sql_array_contains (Movie_Genres r) g)
                  (sql_array_is_empty g)).

(** The [WHERE] clause of [GetAllDirectors] with [$1 = n] and [$2 = a]. *)
Definition director_where (n : string) (a : go_strings) (r : Directors)
    : sqlbool :=
  sql_and (sql_or (ts_match (Directors_Name r) n) (sql_of_bool (String.eqb n "")))
          (sql_or (sql_array_contains (Directors_Awords r) a)
                  (sql_array_is_empty a)).
End Where.

(** Column values, ordered as the database orders them (text by byte
    value, the collation "C"; arrays element by element). *)
Inductive sqlval := VInt (n : Z) | VText (s : string) | VArr (xs : list string).

Fixpoint text_array_compare (xs ys : list string) : comparison :=
  match xs, ys with
  | [], [] => Eq
  | [], _ => Lt
  | _, [] => Gt
  | x :: xs', y :: ys' =>
      match String.compare x y with
      | Eq => text_array_compare xs' ys'
      | c => c
      end
  end.

Definition sqlval_rank (v : sqlval) : nat :=
  match v with VInt _ => 0 | VText _ => 1 | VArr _ => 2 end.

Definition sqlval_compare (a b : sqlval) : comparison :=
  match a, b with
  | VInt x, VInt y => Z.compare x y
  | VText x, VText y => String.compare x y
  | VArr x, VArr y => text_array_compare x y
  | _, _ => Nat.compare (sqlval_rank a) (sqlval_rank b)
  end.

Definition apply_dir (d : string) (c : comparison) : comparison :=
  if String.eqb d "DESC" then CompOpp c else c.

(** Modelled from the spec: the table definitions are in migrations that
    are not part of the sources read here.  The columns below are the ones
    [GetAll] and [GetAllDirectors] select ([created_at] is not modelled),
    and each table is taken to have exactly these columns. *)
Definition movie_cols : list string :=
  ["id"; "title"; "year"; "runtime"; "genres"; "version"].
Definition movie_col (c : string) (r : Movie) : option sqlval :=
  if String.eqb c "id" then Some (VInt (Movie_ID r))
  else if String.eqb c "title" then Some (VText (Movie_Title r))
  else if String.eqb c "year" then Some (VInt (Movie_Year r))
  else if String.eqb c "runtime" then Some (VInt (Movie_Runtime r))
  else if String.eqb c "genres" then Some (VArr (Movie_Genres r))
  else if String.eqb c "version" then Some (VInt (Movie_Version r))
  else None.

Definition director_cols : list string := ["id"; "name"; "surname"; "awords"].
Definition director_col (c : string) (r : Directors) : option sqlval :=
  if String.eqb c "id" then Some (VInt (Directors_ID r))
  else if String.eqb c "name" then Some (VText (Directors_Name r))
  else if String.eqb c "surname" then Some (VText (Directors_Surname r))
  else if String.eqb c "awords" then Some (VArr (Directors_Awords r))
  else None.

Section Select.
Variable Row : Type.
Variable col : string -> Row -> option sqlval.

(** The comparison of two rows under the sort keys of an [ORDER BY]. *)
Fixpoint order_cmp (keys : list (string * string)) (a b : Row) : comparison :=
  match keys with
  | [] => Eq
  | (c, d) :: ks =>
      match col c a, col c b with
      | Some va, Some vb =>
          match apply_dir d (sqlval_compare va vb) with
          | Eq => order_cmp ks a b
          | r => r
          end
      | _, _ => order_cmp ks a b
      end
  end.

Definition order_le (keys : list (string * string)) (a b : Row) : Prop :=
  order_cmp keys a b <> Gt.

(** The rows a [SELECT ... WHERE w ORDER BY keys LIMIT lim OFFSET off]
    may return over [table]: the rows satisfying [w], in an order where no
    row comes after one it sorts above (rows that tie may come in any
    order), then [OFFSET] and [LIMIT].  The database refuses unknown
    columns, directions other than [ASC]/[DESC], and a negative [LIMIT] or
    [OFFSET]. *)
Definition select_result (cols : list string) (w : Row -> sqlbool)
    (keys : list (string * string)) (lim off : Z) (table rows : list Row)
    : Prop :=
  forallb (fun k => existsb (String.eqb (fst k)) cols &&
                    (String.eqb (snd k) "ASC" || String.eqb (snd k) "DESC"))
          keys = true /\
  0 <= lim /\ 0 <= off /\
  exists sorted,
    Permutation sorted (filter (fun r => sql_is_true (w r)) table) /\
    StronglySorted (order_le keys) sorted /\
    rows = firstn (Z.to_nat lim) (skipn (Z.to_nat off) sorted).
End Select.
Arguments order_cmp {Row} col keys a b.
Arguments order_le {Row} col keys a b.
Arguments select_result {Row} col cols w keys lim off table rows.

(** The rows [GetAll(title, genres, f)] may return from [db]: the query of
    [getAll_stmt], whose [ORDER BY] is [list_order_keys f]
    ([sprintf_order_keys]), run with the arguments [getAll_stmt] binds. *)
Definition GetAll_result (ts_match : string -> string -> sqlbool) (db : DB)
    (title : string) (genres : go_strings) (f : Filters) (rows : list Movie)
    : Prop :=
  match snd (getAll_stmt title genres f) with
  | [ArgText t; ArgArray g; ArgInt lim; ArgInt off] =>
      fault db = None /\
      select_result movie_col movie_cols (movie_where ts_match t g)
        (list_order_keys f) lim off (movies db) rows
  | _ => False
  end.

(** The rows [GetAllDirectors(name, surname, awords, f)] may return. *)
Definition GetAllDirectors_result (ts_match : string -> string -> sqlbool)
    (db : DB) (name surname : string) (awords : go_strings) (f : Filters)
    (rows : list Directors) : Prop :=
  match snd (getAllDirectors_stmt name surname awords f) with
  | [ArgText n; ArgArray a; ArgInt lim; ArgInt off] =>
      fault db = None /\
      select_result director_col director_cols (director_where ts_match n a)
        (list_order_keys f) lim off (directors db) rows
  | _ => False
  end.

(* ------------------------------------------------------------------ *)
(** ** Lemmas on the ordering *)

Lemma text_array_compare_antisym (xs ys : list string) :
  text_array_compare xs ys = CompOpp (text_array_compare ys xs).
Proof.
  revert ys. induction xs as [|x xs IH]; intros [|y ys]; simpl; try reflexivity.
  rewrite (String.compare_antisym x y).
  destruct (String.compare y x); simpl; auto.
Qed.

Lemma sqlval_compare_antisym (a b : sqlval) :
  sqlval_compare a b = CompOpp (sqlval_compare b a).
Proof.
  destruct a, b; simpl; try reflexivity.
  - apply Z.compare_antisym.
  - apply String.compare_antisym.
  - apply text_array_compare_antisym.
Qed.

Lemma apply_dir_opp (d : string) (c : comparison) :
  apply_dir d (CompOpp c) = CompOpp (apply_dir d c).
Proof. unfold apply_dir. destruct (String.eqb d "DESC"); reflexivity. Qed.

Section OrderFacts.
Variable Row : Type.
Variable row_id : Row -> Z.
Variable col : string -> Row -> option sqlval.
Hypothesis col_id : forall r, col "id" r = Some (VInt (row_id r)).

Lemma order_cmp_antisym (keys : list (string * string)) (a b : Row) :
  order_cmp col keys a b = CompOpp (order_cmp col keys b a).
Proof.
  induction keys as [|[c d] ks IH]; simpl; [reflexivity|].
  destruct (col c a) as [va|], (col c b) as [vb|]; try exact IH.
  rewrite (sqlval_compare_antisym va vb), apply_dir_opp.
  destruct (apply_dir d (sqlval_compare vb va)); simpl; auto.
Qed.

Lemma order_cmp_eq_id (keys : list (string * string)) (a b : Row) :
  In ("id", "ASC") keys -> order_cmp col keys a b = Eq -> row_id a = row_id b.
Proof.
  induction keys as [|[c d] ks IH]; simpl; [contradiction|].
  intros Hin Hcmp. destruct Hin as [Hk|Hin].
  - injection Hk as -> ->. rewrite !col_id in Hcmp.
    unfold apply_dir in Hcmp; simpl in Hcmp.
    destruct (Z.compare (row_id a) (row_id b)) eqn:Hz; try discriminate.
    now apply Z.compare_eq_iff.
  - apply IH; [assumption|].
    destruct (col c a), (col c b); try exact Hcmp.
    destruct (apply_dir d _); congruence.
Qed.

Lemma order_le_antisym_id (keys : list (string * string)) (a b : Row) :
  In ("id", "ASC") keys -> order_le col keys a b -> order_le col keys b a ->
  row_id a = row_id b.
Proof.
  unfold order_le. intros Hin Hab Hba. apply (order_cmp_eq_id keys); [assumption|].
  rewrite order_cmp_antisym in Hba.
  destruct (order_cmp col keys a b); simpl in *; congruence.
Qed.

(** Two orderings of the same rows with distinct ids that both respect
    sort keys ending in the id are the same list. *)
Lemma sorted_unique (keys : list (string * string)) (l1 l2 : list Row) :
  In ("id", "ASC") keys ->
  NoDup (map row_id l1) -> Permutation l1 l2 ->
  StronglySorted (order_le col keys) l1 ->
  StronglySorted (order_le col keys) l2 -> l1 = l2.
Proof.
  intros Hin. revert l2.
  induction l1 as [|a l1 IH]; intros l2 Hnd Hp Hs1 Hs2.
  - symmetry. now apply Permutation_nil.
  - destruct l2 as [|b l2]; [apply Permutation_sym, Permutation_nil in Hp; discriminate|].
    apply StronglySorted_inv in Hs1 as [Hs1 Ha].
    apply StronglySorted_inv in Hs2 as [Hs2 Hb].
    simpl in Hnd. inversion Hnd as [|? ? Hnotin Hnd']; subst.
    assert (Hab : a = b).
    { assert (Hb_in : In b (a :: l1))
        by (apply (Permutation_in b (Permutation_sym Hp)); now left).
      destruct (Z.eq_dec (row_id a) (row_id b)) as [Heq|Hne].
      - destruct Hb_in as [->|Hb_in]; [reflexivity|].
        exfalso. apply Hnotin. rewrite Heq. now apply in_map.
      - exfalso. apply Hne.
        destruct Hb_in as [->|Hb_in]; [reflexivity|].
        assert (Ha_in : In a (b :: l2))
          by (apply (Permutation_in a Hp); now left).
        destruct Ha_in as [->|Ha_in]; [reflexivity|].
        apply (order_le_antisym_id keys); [assumption| |].
        + rewrite Forall_forall in Ha. now apply Ha.
        + rewrite Forall_forall in Hb. now apply Hb. }
    subst b. f_equal. apply IH; auto.
    now apply Permutation_cons_inv in Hp.
Qed.

Lemma NoDup_map_filter (p : Row -> bool) (l : list Row) :
  NoDup (map row_id l) -> NoDup (map row_id (filter p l)).
Proof.
  induction l as [|a l IH]; simpl; [auto|].
  intros Hnd. inversion Hnd as [|? ? Hnotin Hnd']; subst.
  destruct (p a); simpl; auto.
  constructor; auto. intro Hin. apply Hnotin.
  apply in_map_iff in Hin as [x [Hx Hin]]. rewrite <- Hx.
  apply in_map. apply filter_In in Hin. tauto.
Qed.

(** Over a table with distinct ids, a query whose sort keys end in the id
    has at most one result. *)
Lemma select_result_unique (cols : list string) (w : Row -> sqlbool)
    (keys : list (string * string)) (lim off : Z) (table rows1 rows2 : list Row) :
  In ("id", "ASC") keys -> NoDup (map row_id table) ->
  select_result col cols w keys lim off table rows1 ->
  select_result col cols w keys lim off table rows2 ->
  rows1 = rows2.
Proof.
  intros Hin Hnd (_ & _ & _ & s1 & Hp1 & Hs1 & ->) (_ & _ & _ & s2 & Hp2 & Hs2 & ->).
  f_equal. f_equal. apply (sorted_unique keys); auto.
  - apply (Permutation_NoDup (Permutation_map row_id (Permutation_sym Hp1))).
    now apply NoDup_map_filter.
  - now apply (Permutation_trans Hp1), Permutation_sym.
Qed.
End OrderFacts.

(* ------------------------------------------------------------------ *)
(** ** The list queries *)

Definition movieA : Movie := mkMovie 1 "Alien" 1979 117 ["horror"] 1.
Definition movieB : Movie := mkMovie 2 "Apocalypse Now" 1979 147 ["war"] 1.
(** Two movies of the same year, stored in the order B, A. *)
Definition db_two : DB := mkDB [movieB; movieA] [] [] None [].
Definition movie_safelist : list string :=
  ["id"; "title"; "year"; "runtime"; "-id"; "-title"; "-year"; "-runtime"].
Definition f_year_desc : Filters := mkFilters 1 20 "-year" movie_safelist.
Definition no_text_match (_ _ : string) : sqlbool := SFalse.

(** Listing [db_two] by descending year may return A then B. *)
Lemma getAll_two_result :
  GetAll_result no_text_match db_two "" (Some []) f_year_desc [movieA; movieB].
Proof.
  unfold GetAll_result. simpl. split; [reflexivity|].
  split; [reflexivity|].
  split; [intro H; discriminate H|]. split; [intro H; discriminate H|].
  exists [movieA; movieB]. split; [|split].
  - simpl. apply perm_swap.
  - repeat constructor; unfold order_le; vm_compute; discriminate.
  - reflexivity.
Qed.

(** C3: both list queries sort by the sort column and direction and then by
    [id ASC] (the text after [ORDER BY] renders exactly these keys); over
    tables whose ids are unique, two runs of the same list query over the
    same rows return the same rows in the same order, whatever ties the sort
    column has. *)
Theorem list_order_deterministic (ts_match : string -> string -> sqlbool)
    (db : DB) (title : string) (genres : go_strings)
    (name surname : string) (awords : go_strings) (f : Filters)
    (rows1 rows2 : list Movie) (drows1 drows2 : list Directors) :
  NoDup (map Movie_ID (movies db)) ->
  NoDup (map Directors_ID (directors db)) ->
  list_order_keys f = [(sortColumn f, sortDirection f); ("id", "ASC")] /\
  fst (getAll_stmt title genres f) =
    (getAll_fmt_head ++ render_order (list_order_keys f) ++ nl ++
     "LIMIT $3 OFFSET $4")%string /\
  fst (getAllDirectors_stmt name surname awords f) =
    (getAllDirectors_fmt_head ++ render_order (list_order_keys f) ++ nl ++
     "LIMIT $3 OFFSET $4")%string /\
  (GetAll_result ts_match db title genres f rows1 ->
   GetAll_result ts_match db title genres f rows2 -> rows1 = rows2) /\
  (GetAllDirectors_result ts_match db name surname awords f drows1 ->
   GetAllDirectors_result ts_match db name surname awords f drows2 ->
   drows1 = drows2).
Proof.
  intros Hm Hd.
  assert (Hin : In ("id", "ASC") (list_order_keys f)) by (simpl; auto).
  split; [reflexivity|]. split; [apply sprintf_order_keys|].
  split; [apply sprintf_order_keys|]. split.
  - unfold GetAll_result; simpl. intros [_ H1] [_ H2].
    exact (select_result_unique Movie Movie_ID movie_col (fun r => eq_refl)
             _ _ _ _ _ _ _ _ Hin Hm H1 H2).
  - unfold GetAllDirectors_result; simpl. intros [_ H1] [_ H2].
    exact (select_result_unique Directors Directors_ID director_col
             (fun r => eq_refl) _ _ _ _ _ _ _ _ Hin Hd H1 H2).
Qed.

Lemma list_order_deterministic_witness :
  NoDup (map Movie_ID (movies db_two)) /\
  NoDup (map Directors_ID (directors db_two)) /\
  [movieA; movieB] = [movieA; movieB].
Proof.
  assert (Hm : NoDup (map Movie_ID (movies db_two))).
  { vm_compute. constructor; [intros [H|H]; [discriminate H | exact H]|].
    constructor; [intros [] | constructor]. }
  assert (Hd : NoDup (map Directors_ID (directors db_two))) by constructor.
  split; [exact Hm|]. split; [exact Hd|].
  destruct (list_order_deterministic no_text_match db_two "" (Some []) "" "" (Some [])
              f_year_desc [movieA; movieB] [movieA; movieB] [] [] Hm Hd)
    as (_ & _ & _ & H & _).
  exact (H getAll_two_result getAll_two_result).
Defined.

(** C4: the query text of [GetAll] is [fmt.Sprintf] of its format string
    with the sort column and the sort direction only: two calls with the
    same sort column and direction send the same text whatever their title,
    genres, page and page size, and these four values go to the bound
    arguments [$1] to [$4]. *)
Theorem getAll_text_sort_only (t1 t2 : string) (g1 g2 : go_strings)
    (f1 f2 : Filters) :
  sortColumn f1 = sortColumn f2 -> sortDirection f1 = sortDirection f2 ->
  fst (getAll_stmt t1 g1 f1) = fst (getAll_stmt t2 g2 f2) /\
  fst (getAll_stmt t1 g1 f1) =
    sprintf_ss getAll_fmt_head fmt_tail (sortColumn f1) (sortDirection f1) /\
  snd (getAll_stmt t1 g1 f1) =
    [ArgText t1; ArgArray g1; ArgInt (limit f1); ArgInt (offset f1)].
Proof.
  intros Hc Hd. unfold getAll_stmt; simpl. rewrite Hc, Hd. auto.
Qed.

Lemma getAll_text_sort_only_witness :
  fst (getAll_stmt "Dune" (Some ["sci-fi"]) f_year_desc) =
  fst (getAll_stmt "'; DROP TABLE movies; --" None
         (mkFilters 7 5 "-year" movie_safelist)).
Proof.
  exact (proj1 (getAll_text_sort_only "Dune" "'; DROP TABLE movies; --"
                  (Some ["sci-fi"]) None f_year_desc (mkFilters 7 5 "-year" movie_safelist)
                  eq_refl eq_refl)).
Defined.

(** C5: for a valid filter specification, [limit] is the page size and
    [offset] is [(page-1) * pageSize]; both list statements bind them to
    [$3] and [$4], the placeholders of [LIMIT $3 OFFSET $4] that end their
    text. *)
Theorem list_limit_offset (title : string) (genres : go_strings)
    (name surname : string) (awords : go_strings) (f : Filters) :
  ValidateFilters f = true ->
  limit f = PageSize f /\
  offset f = (Page f - 1) * PageSize f /\
  0 <= offset f /\ 1 <= limit f <= max_page_size /\
  nth_error (snd (getAll_stmt title genres f)) 2 = Some (ArgInt (PageSize f)) /\
  nth_error (snd (getAll_stmt title genres f)) 3 =
    Some (ArgInt ((Page f - 1) * PageSize f)) /\
  nth_error (snd (getAllDirectors_stmt name surname awords f)) 2 =
    Some (ArgInt (PageSize f)) /\
  nth_error (snd (getAllDirectors_stmt name surname awords f)) 3 =
    Some (ArgInt ((Page f - 1) * PageSize f)) /\
  (exists pre, fst (getAll_stmt title genres f) = (pre ++ "LIMIT $3 OFFSET $4")%string) /\
  (exists pre, fst (getAllDirectors_stmt name surname awords f) =
               (pre ++ "LIMIT $3 OFFSET $4")%string).
Proof.
  unfold ValidateFilters. intro H.
  apply andb_true_iff in H as [H _].
  apply andb_true_iff in H as [H H3].
  apply andb_true_iff in H as [H1 H2].
  apply Z.leb_le in H1. apply Z.leb_le in H2. apply Z.leb_le in H3.
  unfold limit, offset. repeat split; try reflexivity; try nia.
  - exists (getAll_fmt_head ++ render_order (list_order_keys f) ++ nl)%string.
    unfold getAll_stmt; simpl. rewrite sprintf_order_keys.
    rewrite !string_app_assoc. reflexivity.
  - exists (getAllDirectors_fmt_head ++ render_order (list_order_keys f) ++ nl)%string.
    unfold getAllDirectors_stmt; simpl. rewrite sprintf_order_keys.
    rewrite !string_app_assoc. reflexivity.
Qed.

Lemma list_limit_offset_witness :
  ValidateFilters (mkFilters 3 20 "-year" movie_safelist) = true /\
  offset (mkFilters 3 20 "-year" movie_safelist) = 40.
Proof.
  split; [reflexivity|].
  exact (proj1 (proj2 (list_limit_offset "" (Some []) "" "" (Some [])
                         (mkFilters 3 20 "-year" movie_safelist) eq_refl))).
Defined.




(* ================================================================== *)
(** * The rest of the data layer and of the handlers *)

Definition set_directors (db : DB) (xs : list Directors) : DB :=
  mkDB db.(movies) db.(actor) xs db.(fault) db.(sent).

Definition q_insert_movie : string :=
  "INSERT INTO movies(title, year, runtime, genres) VALUES ($1, $2, $3, $4) RETURNING id, created_at, version".
Definition q_insert_actor : string :=
  "INSERT INTO actor(fullname, year,girlfriend, films) VALUES ($1, $2, $3,$4) RETURNING id, created_at".
Definition q_insert_director : string :=
  "INSERT INTO directors(name, surname,awords) VALUES ($1, $2, $3) RETURNING id".
Definition q_delete_actor : string := "DELETE FROM actor WHERE id = $1".

Definition err_duplicate_key : string :=
  "duplicate key value violates unique constraint".

Section Inserts.

(** Modelled from the spec: the column constraints of the three tables
    ([NOT NULL], [CHECK], in migrations that are not part of the sources
    read here) are left abstract; section 4.3 says an insert that violates
    one fails.  [movie_check title year runtime genres] is [Some e] when a
    row with these values violates a constraint, [e] being the database's
    error; likewise for the other two tables.  The database checks them
    before the primary key.  A [nil] slice is bound as SQL [NULL] and a
    [NULL] array is read back as a [nil] slice; the records of this file
    write both a [nil] and an empty slice as [[]], and a check may reject
    either (a [NOT NULL] column rejects the [nil] one): the statements below
    hold for every choice of the checks. *)
Variable movie_check : string -> Z -> Z -> list string -> option string.
Variable actor_check : string -> Z -> string -> list string -> option string.
Variable director_check : string -> string -> list string -> option string.

(** Modelled from the spec: the table definitions (in migrations that are not
    part of the sources read here).  Each table takes the id of a new row
    from its id sequence ([seq], the value the sequence hands out), the id
    is the primary key, and [movies.version] starts at 1 (section 4.3, as the
    comment of [Movie.Version] also says).  [QueryRow(q_insert_movie, ...)
    .Scan(&id, &created_at, &version)]. *)
Definition db_insert_movie (seq : Z) (title : string) (year runtime : Z)
    (genres : list string) : M (result (Z * Z)) :=
  fun db0 =>
    let db := log_stmt q_insert_movie db0 in
    match db.(fault) with
    | Some e => (Err (ErrDriver e), db)
    | None =>
        match movie_check title year runtime genres with
        | Some e => (Err (ErrDriver e), db)
        | None =>
            if existsb (fun r => Movie_ID r =? seq) db.(movies)
            then (Err (ErrDriver err_duplicate_key), db)
            else (Ok (seq, 1),
                  set_movies db (db.(movies) ++ [mkMovie seq title year runtime genres 1]))
        end
    end.

(** [QueryRow(q_insert_actor, ...).Scan(&id, &created_at)] (same table
    model as [db_insert_movie]). *)
Definition db_insert_actor (seq : Z) (fullname : string) (year : Z)
    (girlfriend : string) (films : list string) : M (result Z) :=
  fun db0 =>
    let db := log_stmt q_insert_actor db0 in
    match db.(fault) with
    | Some e => (Err (ErrDriver e), db)
    | None =>
        match actor_check fullname year girlfriend films with
        | Some e => (Err (ErrDriver e), db)
        | None =>
            if existsb (fun r => Actor_ID r =? seq) db.(actor)
            then (Err (ErrDriver err_duplicate_key), db)
            else (Ok seq,
                  set_actor db (db.(actor) ++ [mkActor seq fullname year films girlfriend]))
        end
    end.

(** [QueryRow(q_insert_director, ...).Scan(&id)]. *)
Definition db_insert_director (seq : Z) (name surname : string)
    (awords : list string) : M (result Z) :=
  fun db0 =>
    let db := log_stmt q_insert_director db0 in
    match db.(fault) with
    | Some e => (Err (ErrDriver e), db)
    | None =>
        match director_check name surname awords with
        | Some e => (Err (ErrDriver e), db)
        | None =>
            if existsb (fun r => Directors_ID r =? seq) db.(directors)
            then (Err (ErrDriver err_duplicate_key), db)
            else (Ok seq,
                  set_directors db (db.(directors) ++ [mkDirectors seq name surname awords]))
        end
    end.

(** [Exec(q_delete_actor, id)] followed by [RowsAffected()]. *)
Definition db_delete_actor (id : Z) : M (result Z) :=
  fun db0 =>
    let db := log_stmt q_delete_actor db0 in
    match db.(fault) with
    | Some e => (Err (ErrDriver e), db)
    | None =>
        let hit r := Actor_ID r =? id in
        (Ok (Z.of_nat (List.length (filter hit db.(actor)))),
         set_actor db (filter (fun r => negb (hit r)) db.(actor)))
    end.

(** [func (m MovieModel) Insert(movie *Movie) error]: the movie as left
    behind the pointer (id and version scanned into it) and the error. *)
Definition Insert (seq : Z) (mv : Movie) : M (Movie * option go_error) :=
  r <- db_insert_movie seq (Movie_Title mv) (Movie_Year mv) (Movie_Runtime mv)
                       (Movie_Genres mv) ;;
  match r with
  | Ok (id, v) => ret (mkMovie id (Movie_Title mv) (Movie_Year mv)
                               (Movie_Runtime mv) (Movie_Genres mv) v, None)
  | Err e => ret (mv, Some e)
  end.

(** [func (m ActorModel) INSERTACTOR(actor *Actor) error]. *)
Definition INSERTACTOR (seq : Z) (a : Actor) : M (Actor * option go_error) :=
  r <- db_insert_actor seq (Actor_Fullname a) (Actor_Year a) (Actor_Girlfriend a)
                       (Actor_Films a) ;;
  match r with
  | Ok id => ret (mkActor id (Actor_Fullname a) (Actor_Year a) (Actor_Films a)
                          (Actor_Girlfriend a), None)
  | Err e => ret (a, Some e)
  end.

(** [func (m DirectorModel) InsertDirector(directors *Directors) error]. *)
Definition InsertDirector (seq : Z) (d : Directors)
    : M (Directors * option go_error) :=
  r <- db_insert_director seq (Directors_Name d) (Directors_Surname d)
                          (Directors_Awords d) ;;
  match r with
  | Ok id => ret (mkDirectors id (Directors_Name d) (Directors_Surname d)
                              (Directors_Awords d), None)
  | Err e => ret (d, Some e)
  end.

(** [func (m ActorModel) DeleteActor(id int64) error]. *)
Definition DeleteActor (id : Z) : M (option go_error) :=
  if id <? 1 then ret (Some ErrRecordNotFound)
  else
    r <- db_delete_actor id ;;
    match r with
    | Err e => ret (Some e)
    | Ok rowsAffected =>
        if rowsAffected =? 0 then ret (Some ErrRecordNotFound) else ret None
    end.

(** [showMovieHandler]. *)
Definition showMovieHandler (idp : option Z) : M Z :=
  match idp with
  | None => ret notFoundResponse
  | Some id =>
      r <- Get id ;;
      match r with
      | Err ErrRecordNotFound => ret notFoundResponse
      | Err _ => ret serverErrorResponse
      | Ok _ => ret statusOK
      end
  end.

(** [showActorHandler]. *)
Definition showActorHandler (idp : option Z) : M Z :=
  match idp with
  | None => ret notFoundResponse
  | Some id =>
      r <- GetActors id ;;
      match r with
      | Err ErrRecordNotFound => ret notFoundResponse
      | Err _ => ret serverErrorResponse
      | Ok _ => ret statusOK
      end
  end.

(** [deleteMovieHandler]. *)
Definition deleteMovieHandler (idp : option Z) : M Z :=
  match idp with
  | None => ret notFoundResponse
  | Some id =>
      e <- Delete id ;;
      match e with
      | Some ErrRecordNotFound => ret notFoundResponse
      | Some _ => ret serverErrorResponse
      | None => ret statusOK
      end
  end.

(** [deleteActorHandler]. *)
Definition deleteActorHandler (idp : option Z) : M Z :=
  match idp with
  | None => ret notFoundResponse
  | Some id =>
      e <- DeleteActor id ;;
      match e with
      | Some ErrRecordNotFound => ret notFoundResponse
      | Some _ => ret serverErrorResponse
      | None => ret statusOK
      end
  end.

(** Modelled from the spec: the status of [errorResponse(w, r,
    http.StatusBadRequest, ...)] is 400, and a created resource is answered
    with [http.StatusCreated], 201.  A handler that writes several
    responses is modelled by the list of statuses it writes; [net/http]
    keeps the first one ([effective_status]). *)
Definition statusCreated : Z := 201.
Definition effective_status (ws : list Z) : Z :=
  match ws with [] => statusOK | s :: _ => s end.

(** [createMovieHandler]: [input] is the struct as [readJSON] left it and
    [read_ok] whether [readJSON] returned no error; the handler does not
    return after answering a decoding error. *)
Definition createMovieHandler (seq : Z) (input : MovieInput) (read_ok : bool)
    : M (list Z) :=
  let first := if read_ok then [] else [badRequestResponse] in
  res <- Insert seq (mkMovie 0 (in_Title input) (in_Year input)
                           (in_Runtime input) (in_Genres input) 0) ;;
  match snd res with
  | Some _ => ret (first ++ [serverErrorResponse])
  | None => ret (first ++ [statusCreated])
  end.

(** [createActorHandler], modelled as [createMovieHandler]. *)
Definition createActorHandler (seq : Z) (input : ActorInput) (read_ok : bool)
    : M (list Z) :=
  let first := if read_ok then [] else [badRequestResponse] in
  res <- INSERTACTOR seq (mkActor 0 (ia_Fullname input) (ia_Year input)
                                  (ia_Films input) (ia_Girlfriend input)) ;;
  match snd res with
  | Some _ => ret (first ++ [serverErrorResponse])
  | None => ret (first ++ [statusCreated])
  end.

(** The decoded JSON body of [createDirectorHandler]. *)
Record DirectorInput := mkDirectorInput {
  id_Name : string;
  id_Surname : string;
  id_Awords : list string
}.

(** [createDirectorHandler], modelled as [createMovieHandler]. *)
Definition createDirectorHandler (seq : Z) (input : DirectorInput) (read_ok : bool)
    : M (list Z) :=
  let first := if read_ok then [] else [badRequestResponse] in
  res <- InsertDirector seq (mkDirectors 0 (id_Name input) (id_Surname input)
                                         (id_Awords input)) ;;
  match snd res with
  | Some _ => ret (first ++ [serverErrorResponse])
  | None => ret (first ++ [statusCreated])
  end.

End Inserts.

(* ------------------------------------------------------------------ *)
(** ** Lemmas on lookups *)

Ltac run_db :=
  unfold bind, ret, log_stmt, set_movies, set_actor, set_directors in *; simpl in *.

Lemma find_key_unique {A} (key : A -> Z) (l : list A) (r : A) (k : Z) :
  NoDup (map key l) -> In r l -> key r = k -> find (fun x => key x =? k) l = Some r.
Proof.
  induction l as [|a l IH]; simpl; [contradiction|].
  intros Hnd Hin Hk. inversion Hnd as [|? ? Hnotin Hnd']; subst.
  destruct Hin as [->|Hin].
  - now rewrite Z.eqb_refl.
  - destruct (key a =? key r) eqn:E.
    + apply Z.eqb_eq in E. exfalso. apply Hnotin. rewrite E. now apply in_map.
    + now apply IH.
Qed.

Lemma find_key_none {A} (key : A -> Z) (l : list A) (k : Z) :
  find (fun x => key x =? k) l = None <-> Forall (fun r => key r <> k) l.
Proof.
  rewrite find_none_Forall. split; intro H; eapply Forall_impl; try exact H;
    simpl; intros; now apply Z.eqb_neq.
Qed.

Lemma Get_result (db : DB) (id : Z) :
  Get id db =
  (if id <? 1 then Err ErrRecordNotFound
   else match fault db with
        | Some e => Err (ErrDriver e)
        | None => match find (fun r => Movie_ID r =? id) (movies db) with
                  | Some r => Ok r
                  | None => Err ErrRecordNotFound
                  end
        end,
   if id <? 1 then db else log_stmt q_get_movie db).
Proof.
  unfold Get. destruct (id <? 1); [reflexivity|].
  unfold db_get_movie. run_db. destruct (fault db); [reflexivity|].
  destruct (find _ _); reflexivity.
Qed.

Lemma GetActors_result (db : DB) (id : Z) :
  GetActors id db =
  (if id <? 1 then Err ErrRecordNotFound
   else match fault db with
        | Some e => Err (ErrDriver e)
        | None => match find (fun r => Actor_ID r =? id) (actor db) with
                  | Some r => Ok r
                  | None => Err ErrRecordNotFound
                  end
        end,
   if id <? 1 then db else log_stmt q_get_actor db).
Proof.
  unfold GetActors. destruct (id <? 1); [reflexivity|].
  unfold db_get_actor. run_db. destruct (fault db); [reflexivity|].
  destruct (find _ _); reflexivity.
Qed.

(* ------------------------------------------------------------------ *)
(** ** [MovieModel.Get] and [ActorModel.GetActors] *)

(** [Get id] returns [ErrRecordNotFound] exactly when [id < 1] or the
    database works and holds no movie with this id; a storage failure is
    returned as it is; a returned movie is a stored row with this id, and
    on a table with unique ids it is the stored row with this id; [Get]
    changes no row. *)
Theorem Get_spec (db : DB) (id : Z) :
  (fst (Get id db) = Err ErrRecordNotFound <->
   id < 1 \/ (fault db = None /\ Forall (fun r => Movie_ID r <> id) (movies db))) /\
  (forall e, 1 <= id -> fault db = Some e -> fst (Get id db) = Err (ErrDriver e)) /\
  (forall mv, fst (Get id db) = Ok mv -> In mv (movies db) /\ Movie_ID mv = id) /\
  (forall r, 1 <= id -> fault db = None -> NoDup (map Movie_ID (movies db)) ->
             In r (movies db) -> Movie_ID r = id -> fst (Get id db) = Ok r) /\
  movies (snd (Get id db)) = movies db.
Proof.
  rewrite Get_result. simpl.
  destruct (id <? 1) eqn:Hlt.
  - apply Z.ltb_lt in Hlt. repeat split; intros; try lia; try discriminate; auto.
  - apply Z.ltb_ge in Hlt. split; [|split; [|split; [|split]]].
    + destruct (fault db) eqn:Hf.
      * split; [discriminate|]. intros [H|[H _]]; [lia|discriminate].
      * destruct (find _ _) as [r|] eqn:Hfind.
        -- split; [discriminate|]. intros [H|[_ H]]; [lia|].
           apply find_key_none in H. congruence.
        -- split; [intros _; right; split; [reflexivity|]|reflexivity].
           now apply find_key_none.
    + intros e _ Hf. now rewrite Hf.
    + intros mv. destruct (fault db); [discriminate|].
      destruct (find _ _) as [r|] eqn:Hfind; [|discriminate].
      intro H. injection H as <-. apply find_some in Hfind as [Hin Hk].
      split; [assumption|]. now apply Z.eqb_eq.
    + intros r _ Hf Hnd Hin Hid. rewrite Hf.
      now rewrite (find_key_unique Movie_ID (movies db) r id Hnd Hin Hid).
    + reflexivity.
Qed.

(** [GetActors id], the same for the actor table. *)
Theorem GetActors_spec (db : DB) (id : Z) :
  (fst (GetActors id db) = Err ErrRecordNotFound <->
   id < 1 \/ (fault db = None /\ Forall (fun r => Actor_ID r <> id) (actor db))) /\
  (forall e, 1 <= id -> fault db = Some e ->
             fst (GetActors id db) = Err (ErrDriver e)) /\
  (forall a, fst (GetActors id db) = Ok a -> In a (actor db) /\ Actor_ID a = id) /\
  (forall r, 1 <= id -> fault db = None -> NoDup (map Actor_ID (actor db)) ->
             In r (actor db) -> Actor_ID r = id -> fst (GetActors id db) = Ok r) /\
  actor (snd (GetActors id db)) = actor db.
Proof.
  rewrite GetActors_result. simpl.
  destruct (id <? 1) eqn:Hlt.
  - apply Z.ltb_lt in Hlt. repeat split; intros; try lia; try discriminate; auto.
  - apply Z.ltb_ge in Hlt. split; [|split; [|split; [|split]]].
    + destruct (fault db) eqn:Hf.
      * split; [discriminate|]. intros [H|[H _]]; [lia|discriminate].
      * destruct (find _ _) as [r|] eqn:Hfind.
        -- split; [discriminate|]. intros [H|[_ H]]; [lia|].
           apply find_key_none in H. congruence.
        -- split; [intros _; right; split; [reflexivity|]|reflexivity].
           now apply find_key_none.
    + intros e _ Hf. now rewrite Hf.
    + intros a. destruct (fault db); [discriminate|].
      destruct (find _ _) as [r|] eqn:Hfind; [|discriminate].
      intro H. injection H as <-. apply find_some in Hfind as [Hin Hk].
      split; [assumption|]. now apply Z.eqb_eq.
    + intros r _ Hf Hnd Hin Hid. rewrite Hf.
      now rewrite (find_key_unique Actor_ID (actor db) r id Hnd Hin Hid).
    + reflexivity.
Qed.

Lemma existsb_key_false {A} (key : A -> Z) (l : list A) (k : Z) :
  Forall (fun r => key r <> k) l -> existsb (fun r => key r =? k) l = false.
Proof.
  induction 1 as [|a l Ha _ IH]; simpl; [reflexivity|].
  apply Z.eqb_neq in Ha. now rewrite Ha, IH.
Qed.

Lemma existsb_key_true {A} (key : A -> Z) (l : list A) (r : A) (k : Z) :
  In r l -> key r = k -> existsb (fun x => key x =? k) l = true.
Proof.
  intros Hin Hk. apply existsb_exists. exists r. split; [assumption|].
  now apply Z.eqb_eq.
Qed.

Lemma find_app_skip {A} (f : A -> bool) (l l' : list A) :
  Forall (fun r => f r = false) l -> find f (l ++ l') = find f l'.
Proof. induction 1 as [|a l Ha _ IH]; simpl; [reflexivity|]. now rewrite Ha. Qed.

Lemma map_skip {A} (f : A -> bool) (g : A -> A) (l : list A) :
  Forall (fun r => f r = false) l ->
  map (fun r => if f r then g r else r) l = l.
Proof.
  induction 1 as [|a l Ha _ IH]; simpl; [reflexivity|]. now rewrite Ha, IH.
Qed.

Lemma NoDup_map_app_single {A} (key : A -> Z) (l : list A) (x : A) :
  NoDup (map key l) -> Forall (fun r => key r <> key x) l ->
  NoDup (map key (l ++ [x])).
Proof.
  intros Hnd Hall. rewrite map_app. apply NoDup_app; auto.
  - repeat constructor. intros [].
  - intros k Hk [<-|[]]. apply in_map_iff in Hk as [r [Hr Hin]].
    rewrite Forall_forall in Hall. exact (Hall r Hin Hr).
Qed.

(* ------------------------------------------------------------------ *)
(** ** [ActorModel.DeleteActor] *)

(** [DeleteActor id] returns [ErrRecordNotFound] exactly when [id < 1] or
    the database works and holds no actor with this id; it succeeds only
    when such an actor was stored; on a working database it removes exactly
    the actors with this id, and it never touches the other tables. *)
Theorem DeleteActor_spec (db : DB) (id : Z) :
  (fst (DeleteActor id db) = Some ErrRecordNotFound <->
   id < 1 \/ (fault db = None /\ Forall (fun r => Actor_ID r <> id) (actor db))) /\
  (fst (DeleteActor id db) = None -> exists r, In r (actor db) /\ Actor_ID r = id) /\
  (fault db = None -> 1 <= id ->
   forall r, In r (actor (snd (DeleteActor id db))) <->
             In r (actor db) /\ Actor_ID r <> id) /\
  movies (snd (DeleteActor id db)) = movies db /\
  directors (snd (DeleteActor id db)) = directors db.
Proof.
  unfold DeleteActor. destruct (id <? 1) eqn:Hlt.
  - apply Z.ltb_lt in Hlt. simpl. repeat split; intros; try lia; try discriminate; auto.
  - apply Z.ltb_ge in Hlt. unfold db_delete_actor. run_db.
    destruct (fault db) eqn:Hf; simpl.
    + repeat split; intros; try discriminate; try lia.
      destruct H as [H|[H _]]; [lia|discriminate].
    + assert (Hrest : forall r, In r (filter (fun r => negb (Actor_ID r =? id)) (actor db))
                                <-> In r (actor db) /\ Actor_ID r <> id).
      { intro r. rewrite filter_In, negb_true_iff, Z.eqb_neq. reflexivity. }
      destruct (Z.of_nat _ =? 0) eqn:Hz; simpl.
      * apply Z.eqb_eq in Hz.
        split; [split; [intros _ | reflexivity]|].
        { right. split; [reflexivity|].
          apply find_key_none, find_none_Forall, filter_nil_Forall.
          destruct (filter (fun r => Actor_ID r =? id) (actor db));
            [reflexivity | simpl in Hz; lia]. }
        split; [discriminate|].
        split; [intros _ _; exact Hrest|]. split; reflexivity.
      * apply Z.eqb_neq in Hz.
        split; [split; [discriminate|]|].
        { intros [H|[_ H]]; [lia|]. apply find_key_none, find_none_Forall in H.
          rewrite (filter_all_false _ _ H) in Hz. simpl in Hz. lia. }
        split.
        { intros _. destruct (filter (fun r => Actor_ID r =? id) (actor db))
            as [|x xs] eqn:E; [simpl in Hz; lia|].
          assert (Hx : In x (filter (fun r => Actor_ID r =? id) (actor db)))
            by (rewrite E; now left).
          apply filter_In in Hx as [Hin Hk]. exists x. split; [assumption|].
          now apply Z.eqb_eq. }
        split; [intros _ _; exact Hrest|]. split; reflexivity.
Qed.

(* ------------------------------------------------------------------ *)
(** ** How the movie operations compose *)

Lemma Delete_movies (db : DB) (id : Z) :
  fault db = None -> 1 <= id ->
  movies (snd (Delete id db)) = filter (fun r => negb (Movie_ID r =? id)) (movies db).
Proof.
  intros Hf Hid. unfold Delete.
  replace (id <? 1) with false by (symmetry; apply Z.ltb_ge; lia).
  unfold db_delete_movie. run_db. rewrite Hf. simpl.
  destruct (Z.of_nat _ =? 0); reflexivity.
Qed.

(** After [Delete id] on a working database, [Get id] returns
    [ErrRecordNotFound]; the movies with other ids are still stored and no
    other table changed. *)
Theorem Delete_then_Get (db : DB) (id : Z) :
  fault db = None ->
  fst (Get id (snd (Delete id db))) = Err ErrRecordNotFound /\
  (forall r, Movie_ID r <> id ->
             In r (movies (snd (Delete id db))) <-> In r (movies db)) /\
  actor (snd (Delete id db)) = actor db /\
  directors (snd (Delete id db)) = directors db.
Proof.
  intros Hf.
  assert (Hother : actor (snd (Delete id db)) = actor db /\
                   directors (snd (Delete id db)) = directors db).
  { unfold Delete. destruct (id <? 1); [auto|].
    unfold db_delete_movie. run_db. rewrite Hf. simpl.
    destruct (Z.of_nat _ =? 0); auto. }
  destruct (Z_lt_le_dec id 1) as [Hlt|Hge].
  - assert (E : Delete id db = (Some ErrRecordNotFound, db))
      by (unfold Delete; apply Z.ltb_lt in Hlt; now rewrite Hlt).
    rewrite E. simpl. rewrite Get_result.
    apply Z.ltb_lt in Hlt. rewrite Hlt. repeat split; tauto.
  - rewrite Get_result.
    replace (id <? 1) with false by (symmetry; apply Z.ltb_ge; lia).
    rewrite Delete_fault, Hf.
    pose proof (Delete_absent id db Hf Hge) as Habs.
    apply find_key_none in Habs. rewrite Habs.
    split; [reflexivity|]. split; [|exact Hother].
    intros r Hr. rewrite Delete_movies by assumption.
    rewrite filter_In, negb_true_iff, Z.eqb_neq. tauto.
Qed.

(** After a successful [Update] of a movie with a positive id (on a table
    with unique ids), [Get] of that id returns a movie with the id, title,
    year, runtime, genres and version of the movie [Update] handed back
    ([created_at] is not compared: [Update] leaves the caller's value in
    the struct); the movies with other ids are untouched and the ids stay
    unique. *)
Theorem Update_then_Get (db : DB) (mv mv' : Movie) (db' : DB) :
  NoDup (map Movie_ID (movies db)) -> 1 <= Movie_ID mv ->
  Update mv db = ((mv', None), db') ->
  (exists m, fst (Get (Movie_ID mv) db') = Ok m /\
             Movie_ID m = Movie_ID mv' /\ Movie_Title m = Movie_Title mv' /\
             Movie_Year m = Movie_Year mv' /\ Movie_Runtime m = Movie_Runtime mv' /\
             Movie_Genres m = Movie_Genres mv' /\ Movie_Version m = Movie_Version mv') /\
  (forall r, Movie_ID r <> Movie_ID mv -> In r (movies db') <-> In r (movies db)) /\
  NoDup (map Movie_ID (movies db')).
Proof.
  intros Hnd Hid H.
  unfold Update, bind, ret, db_update_movie, log_stmt, set_movies in H. simpl in H.
  destruct (fault db) eqn:Hf; simpl in H; [discriminate|].
  destruct (find _ _) as [r|] eqn:Hfind; simpl in H; [|discriminate].
  destruct (_ >? int32_max); simpl in H; [discriminate|].
  injection H as Hmv <-.
  apply find_some in Hfind as [Hin Hhit]. cbv beta in Hhit.
  pose proof Hhit as Hhit'.
  apply andb_true_iff in Hhit' as [H1 H2]. apply Z.eqb_eq in H1, H2.
  match goal with |- context [map ?u (movies db)] => set (upd := u) end.
  assert (Hupd : forall x, Movie_ID (upd x) = Movie_ID x)
    by (intro x; unfold upd; cbv beta;
        destruct ((Movie_ID x =? Movie_ID mv) && (Movie_Version x =? Movie_Version mv));
        reflexivity).
  assert (Hids : map Movie_ID (map upd (movies db)) = map Movie_ID (movies db))
    by (rewrite map_map; apply map_ext; exact Hupd).
  assert (Hr : upd r = mkMovie (Movie_ID mv) (Movie_Title mv) (Movie_Year mv)
                         (Movie_Runtime mv) (Movie_Genres mv) (Movie_Version r + 1)).
  { unfold upd; cbv beta. rewrite H1, H2, !Z.eqb_refl. reflexivity. }
  assert (Hnd' : NoDup (map Movie_ID (map upd (movies db)))) by now rewrite Hids.
  split; [|split; [|exact Hnd']].
  - exists mv'. split; [|repeat split].
    rewrite Get_result. simpl.
    replace (Movie_ID mv <? 1) with false by (symmetry; apply Z.ltb_ge; lia).
    rewrite <- Hmv, <- Hr.
    rewrite (find_key_unique Movie_ID (map upd (movies db)) (upd r) (Movie_ID mv) Hnd');
      [reflexivity | now apply in_map | ].
    now rewrite Hupd.
  - intros x Hx. simpl. split.
    + intro Hin'. apply in_map_iff in Hin' as [y [Hy Hiny]].
      unfold upd in Hy; cbv beta in Hy.
      destruct ((Movie_ID y =? Movie_ID mv) && (Movie_Version y =? Movie_Version mv))
        eqn:Ey.
      * exfalso. apply Hx. rewrite <- Hy. simpl.
        apply andb_true_iff in Ey as [E _]. now apply Z.eqb_eq.
      * now subst.
    + intro Hinx. replace x with (upd x) by
        (unfold upd; cbv beta; apply Z.eqb_neq in Hx; now rewrite Hx).
      now apply in_map.
Qed.

Lemma Insert_fresh (mc : string -> Z -> Z -> list string -> option string)
    (db : DB) (seq : Z) (mv : Movie) :
  fault db = None ->
  mc (Movie_Title mv) (Movie_Year mv) (Movie_Runtime mv) (Movie_Genres mv) = None ->
  Forall (fun r => Movie_ID r <> seq) (movies db) ->
  Insert mc seq mv db =
  ((mkMovie seq (Movie_Title mv) (Movie_Year mv) (Movie_Runtime mv)
            (Movie_Genres mv) 1, None),
   set_movies (log_stmt q_insert_movie db)
     (movies db ++ [mkMovie seq (Movie_Title mv) (Movie_Year mv)
                            (Movie_Runtime mv) (Movie_Genres mv) 1])).
Proof.
  intros Hf Hc Hfresh. unfold Insert, db_insert_movie, bind, ret. simpl.
  rewrite Hf, Hc, (existsb_key_false Movie_ID _ _ Hfresh). reflexivity.
Qed.

Lemma existsb_key_false_inv {A} (key : A -> Z) (l : list A) (k : Z) :
  existsb (fun r => key r =? k) l = false -> Forall (fun r => key r <> k) l.
Proof.
  intros H. apply Forall_forall. intros x Hx Hk.
  assert (Hx' : existsb (fun r => key r =? k) l = true)
    by (apply existsb_exists; exists x; split; [exact Hx | now apply Z.eqb_eq]).
  congruence.
Qed.

(** What a successful [Insert] tells about the state it ran in and the
    state it leaves. *)
Lemma Insert_ok (mc : string -> Z -> Z -> list string -> option string)
    (db : DB) (seq : Z) (mv mv' : Movie) (db' : DB) :
  Insert mc seq mv db = ((mv', None), db') ->
  fault db = None /\
  mc (Movie_Title mv) (Movie_Year mv) (Movie_Runtime mv) (Movie_Genres mv) = None /\
  Forall (fun r => Movie_ID r <> seq) (movies db) /\
  mv' = mkMovie seq (Movie_Title mv) (Movie_Year mv) (Movie_Runtime mv)
                (Movie_Genres mv) 1 /\
  db' = set_movies (log_stmt q_insert_movie db) (movies db ++ [mv']).
Proof.
  unfold Insert, db_insert_movie, bind, ret. simpl. intros H.
  destruct (fault db) eqn:Hf; [discriminate|].
  destruct (mc _ _ _ _) eqn:Hc; [discriminate|].
  destruct (existsb _ _) eqn:He; [discriminate|].
  injection H as <- <-.
  repeat split; [now apply existsb_key_false_inv in He].
Qed.

Lemma INSERTACTOR_ok (ac : string -> Z -> string -> list string -> option string)
    (db : DB) (seq : Z) (a a' : Actor) (db' : DB) :
  INSERTACTOR ac seq a db = ((a', None), db') ->
  fault db = None /\
  ac (Actor_Fullname a) (Actor_Year a) (Actor_Girlfriend a) (Actor_Films a) = None /\
  Forall (fun r => Actor_ID r <> seq) (actor db) /\
  a' = mkActor seq (Actor_Fullname a) (Actor_Year a) (Actor_Films a)
               (Actor_Girlfriend a) /\
  db' = set_actor (log_stmt q_insert_actor db) (actor db ++ [a']).
Proof.
  unfold INSERTACTOR, db_insert_actor, bind, ret. simpl. intros H.
  destruct (fault db) eqn:Hf; [discriminate|].
  destruct (ac _ _ _ _) eqn:Hc; [discriminate|].
  destruct (existsb _ _) eqn:He; [discriminate|].
  injection H as <- <-.
  repeat split; [now apply existsb_key_false_inv in He].
Qed.

Lemma InsertDirector_ok (dc : string -> string -> list string -> option string)
    (db : DB) (seq : Z) (d d' : Directors) (db' : DB) :
  InsertDirector dc seq d db = ((d', None), db') ->
  fault db = None /\
  dc (Directors_Name d) (Directors_Surname d) (Directors_Awords d) = None /\
  Forall (fun r => Directors_ID r <> seq) (directors db) /\
  d' = mkDirectors seq (Directors_Name d) (Directors_Surname d) (Directors_Awords d) /\
  db' = set_directors (log_stmt q_insert_director db) (directors db ++ [d']).
Proof.
  unfold InsertDirector, db_insert_director, bind, ret. simpl. intros H.
  destruct (fault db) eqn:Hf; [discriminate|].
  destruct (dc _ _ _) eqn:Hc; [discriminate|].
  destruct (existsb _ _) eqn:He; [discriminate|].
  injection H as <- <-.
  repeat split; [now apply existsb_key_false_inv in He].
Qed.

(** A successful [Insert] (whatever the column constraints of the table)
    ran on a working database, on a row the constraints accept and with an
    id no stored movie has; it hands back the movie with that id and
    version 1, appends exactly that row, keeps the ids unique, and [Get] of
    the new id (a positive one) returns it. *)
Theorem Insert_then_Get (mc : string -> Z -> Z -> list string -> option string)
    (db : DB) (seq : Z) (mv mv' : Movie) (db' : DB) :
  1 <= seq -> NoDup (map Movie_ID (movies db)) ->
  Insert mc seq mv db = ((mv', None), db') ->
  (fault db = None /\
   mc (Movie_Title mv) (Movie_Year mv) (Movie_Runtime mv) (Movie_Genres mv) = None /\
   Forall (fun r => Movie_ID r <> seq) (movies db)) /\
  mv' = mkMovie seq (Movie_Title mv) (Movie_Year mv) (Movie_Runtime mv)
                (Movie_Genres mv) 1 /\
  movies db' = movies db ++ [mv'] /\
  NoDup (map Movie_ID (movies db')) /\
  fst (Get seq db') = Ok mv'.
Proof.
  intros Hseq Hnd H.
  destruct (Insert_ok mc db seq mv mv' db' H) as (Hf & Hc & Hfresh & Hmv & ->).
  assert (Hk : Movie_ID mv' = seq) by now rewrite Hmv.
  assert (Hnd' : NoDup (map Movie_ID (movies db ++ [mv'])))
    by (apply NoDup_map_app_single; [exact Hnd | rewrite Hk; exact Hfresh]).
  split; [auto|]. split; [exact Hmv|]. split; [reflexivity|]. split; [exact Hnd'|].
  rewrite Get_result. simpl.
  replace (seq <? 1) with false by (symmetry; apply Z.ltb_ge; lia).
  rewrite Hf. rewrite (find_key_unique Movie_ID _ mv' seq Hnd'); [reflexivity| |exact Hk].
  apply in_or_app. right. now left.
Qed.

(** The optimistic-concurrency protocol end to end: after a successful
    [Insert], a successful [Update] of the inserted record with new fields
    hands back version 2, and a second [Update] still carrying version 1
    is an edit conflict. *)
Theorem Insert_Update_stale (mc : string -> Z -> Z -> list string -> option string)
    (db : DB) (seq : Z) (mv m1 : Movie) (db1 : DB)
    (t : string) (y ru : Z) (g : list string) (m3 : Movie) (db2 : DB) :
  Insert mc seq mv db = ((m1, None), db1) ->
  Update (mkMovie (Movie_ID m1) t y ru g (Movie_Version m1)) db1 = ((m3, None), db2) ->
  m3 = mkMovie seq t y ru g 2 /\
  snd (fst (Update (mkMovie (Movie_ID m1) t y ru g (Movie_Version m1)) db2)) =
    Some ErrEditConflict.
Proof.
  intros Hi Hu.
  destruct (Insert_ok mc db seq mv m1 db1 Hi) as (Hf & _ & Hfresh & -> & ->).
  simpl in Hu |- *.
  assert (Hskip : forall v,
    Forall (fun r => ((Movie_ID r =? seq) && (Movie_Version r =? v)) = false) (movies db)).
  { intro v. eapply Forall_impl; [|exact Hfresh]. simpl. intros r Hr.
    apply Z.eqb_neq in Hr. now rewrite Hr. }
  unfold_update. rewrite Hf in Hu.
  rewrite (find_app_skip _ _ _ (Hskip 1)) in Hu. simpl in Hu.
  rewrite Z.eqb_refl in Hu. simpl in Hu.
  injection Hu as <- <-. split; [reflexivity|].
  simpl. rewrite map_app, (map_skip _ _ _ (Hskip 1)). simpl. rewrite Z.eqb_refl. simpl.
  rewrite (find_app_skip _ _ _ (Hskip 1)). simpl. rewrite Z.eqb_refl. simpl.
  reflexivity.
Qed.

(* ------------------------------------------------------------------ *)
(** ** The insert methods *)

(** A failing database makes every insert method return the driver error;
    on a working database a row that violates a column constraint gets the
    database's error.  Whenever an insert method returns an error, it
    hands back the record as it was passed and changes no table: only the
    statement was sent. *)
Theorem Insert_failure (mc : string -> Z -> Z -> list string -> option string)
    (ac : string -> Z -> string -> list string -> option string)
    (dc : string -> string -> list string -> option string) (db : DB) (seq : Z) :
  (forall e, fault db = Some e ->
   (forall mv, snd (fst (Insert mc seq mv db)) = Some (ErrDriver e)) /\
   (forall a, snd (fst (INSERTACTOR ac seq a db)) = Some (ErrDriver e)) /\
   (forall d, snd (fst (InsertDirector dc seq d db)) = Some (ErrDriver e))) /\
  (fault db = None ->
   (forall mv e,
    mc (Movie_Title mv) (Movie_Year mv) (Movie_Runtime mv) (Movie_Genres mv) = Some e ->
    snd (fst (Insert mc seq mv db)) = Some (ErrDriver e)) /\
   (forall a e,
    ac (Actor_Fullname a) (Actor_Year a) (Actor_Girlfriend a) (Actor_Films a) = Some e ->
    snd (fst (INSERTACTOR ac seq a db)) = Some (ErrDriver e)) /\
   (forall d e,
    dc (Directors_Name d) (Directors_Surname d) (Directors_Awords d) = Some e ->
    snd (fst (InsertDirector dc seq d db)) = Some (ErrDriver e))) /\
  (forall mv mv' err db', Insert mc seq mv db = ((mv', Some err), db') ->
   mv' = mv /\ db' = log_stmt q_insert_movie db) /\
  (forall a a' err db', INSERTACTOR ac seq a db = ((a', Some err), db') ->
   a' = a /\ db' = log_stmt q_insert_actor db) /\
  (forall d d' err db', InsertDirector dc seq d db = ((d', Some err), db') ->
   d' = d /\ db' = log_stmt q_insert_director db).
Proof.
  unfold Insert, INSERTACTOR, InsertDirector, db_insert_movie, db_insert_actor,
    db_insert_director, bind, ret. simpl.
  split; [|split; [|split; [|split]]].
  - intros e Hf. rewrite Hf. repeat split.
  - intros Hf. rewrite Hf.
    split; [|split]; intros x e Hc; rewrite Hc; reflexivity.
  - intros x x' err db' H. destruct db as [m0 a0 d0 f0 s0]. simpl in H |- *.
    destruct f0; [injection H as <- _ <-; now split|].
    destruct (mc _ _ _ _); [injection H as <- _ <-; now split|].
    destruct (existsb _ _); [injection H as <- _ <-; now split | discriminate].
  - intros x x' err db' H. destruct db as [m0 a0 d0 f0 s0]. simpl in H |- *.
    destruct f0; [injection H as <- _ <-; now split|].
    destruct (ac _ _ _ _); [injection H as <- _ <-; now split|].
    destruct (existsb _ _); [injection H as <- _ <-; now split | discriminate].
  - intros x x' err db' H. destruct db as [m0 a0 d0 f0 s0]. simpl in H |- *.
    destruct f0; [injection H as <- _ <-; now split|].
    destruct (dc _ _ _); [injection H as <- _ <-; now split|].
    destruct (existsb _ _); [injection H as <- _ <-; now split | discriminate].
Qed.

Lemma INSERTACTOR_fresh (ac : string -> Z -> string -> list string -> option string)
    (db : DB) (seq : Z) (a : Actor) :
  fault db = None ->
  ac (Actor_Fullname a) (Actor_Year a) (Actor_Girlfriend a) (Actor_Films a) = None ->
  Forall (fun r => Actor_ID r <> seq) (actor db) ->
  INSERTACTOR ac seq a db =
  ((mkActor seq (Actor_Fullname a) (Actor_Year a) (Actor_Films a)
            (Actor_Girlfriend a), None),
   set_actor (log_stmt q_insert_actor db)
     (actor db ++ [mkActor seq (Actor_Fullname a) (Actor_Year a)
                           (Actor_Films a) (Actor_Girlfriend a)])).
Proof.
  intros Hf Hc Hfresh. unfold INSERTACTOR, db_insert_actor, bind, ret. simpl.
  rewrite Hf, Hc, (existsb_key_false Actor_ID _ _ Hfresh). reflexivity.
Qed.

(** A successful [INSERTACTOR] ran on a working database, on a row the
    constraints accept and with an id no stored actor has; it hands back
    the actor with that id, appends exactly that row and no movie, keeps
    the ids unique, and [GetActors] of the new id (a positive one) returns
    it. *)
Theorem INSERTACTOR_then_GetActors
    (ac : string -> Z -> string -> list string -> option string)
    (db : DB) (seq : Z) (a a' : Actor) (db' : DB) :
  1 <= seq -> NoDup (map Actor_ID (actor db)) ->
  INSERTACTOR ac seq a db = ((a', None), db') ->
  (fault db = None /\
   ac (Actor_Fullname a) (Actor_Year a) (Actor_Girlfriend a) (Actor_Films a) = None /\
   Forall (fun r => Actor_ID r <> seq) (actor db)) /\
  a' = mkActor seq (Actor_Fullname a) (Actor_Year a) (Actor_Films a)
               (Actor_Girlfriend a) /\
  actor db' = actor db ++ [a'] /\
  movies db' = movies db /\
  NoDup (map Actor_ID (actor db')) /\
  fst (GetActors seq db') = Ok a'.
Proof.
  intros Hseq Hnd H.
  destruct (INSERTACTOR_ok ac db seq a a' db' H) as (Hf & Hc & Hfresh & Ha & ->).
  assert (Hk : Actor_ID a' = seq) by now rewrite Ha.
  assert (Hnd' : NoDup (map Actor_ID (actor db ++ [a'])))
    by (apply NoDup_map_app_single; [exact Hnd | rewrite Hk; exact Hfresh]).
  split; [auto|]. split; [exact Ha|]. split; [reflexivity|]. split; [reflexivity|].
  split; [exact Hnd'|].
  rewrite GetActors_result. simpl.
  replace (seq <? 1) with false by (symmetry; apply Z.ltb_ge; lia).
  rewrite Hf. rewrite (find_key_unique Actor_ID _ a' seq Hnd'); [reflexivity| |exact Hk].
  apply in_or_app. right. now left.
Qed.

(** A successful [InsertDirector] ran on a working database, on a row the
    constraints accept and with an id no stored director has; it hands
    back the director with that id, appends exactly that row, keeps the
    ids unique and changes neither the movies nor the actors. *)
Theorem InsertDirector_fresh (dc : string -> string -> list string -> option string)
    (db : DB) (seq : Z) (d d' : Directors) (db' : DB) :
  NoDup (map Directors_ID (directors db)) ->
  InsertDirector dc seq d db = ((d', None), db') ->
  (fault db = None /\
   dc (Directors_Name d) (Directors_Surname d) (Directors_Awords d) = None /\
   Forall (fun r => Directors_ID r <> seq) (directors db)) /\
  d' = mkDirectors seq (Directors_Name d) (Directors_Surname d) (Directors_Awords d) /\
  directors db' = directors db ++ [d'] /\
  NoDup (map Directors_ID (directors db')) /\
  movies db' = movies db /\
  actor db' = actor db.
Proof.
  intros Hnd H.
  destruct (InsertDirector_ok dc db seq d d' db' H) as (Hf & Hc & Hfresh & Hd & ->).
  split; [auto|]. split; [exact Hd|]. split; [reflexivity|].
  split; [|split; reflexivity].
  apply NoDup_map_app_single; [exact Hnd | rewrite Hd; exact Hfresh].
Qed.

(* ------------------------------------------------------------------ *)
(** ** [ActorModel.UpdateActor] *)

(** A successful [UpdateActor] (on a table with unique ids) hands back the
    actor exactly as it was passed, and [GetActors] of its id then returns
    an actor with its id, full name, year, films and girlfriend
    ([created_at] is not compared: the caller's value stays in the struct);
    the actors with other ids and the movies are untouched. *)
Theorem UpdateActor_then_GetActors (db : DB) (a a' : Actor) (db' : DB) :
  NoDup (map Actor_ID (actor db)) -> 1 <= Actor_ID a ->
  UpdateActor a db = ((a', None), db') ->
  a' = a /\
  (exists x, fst (GetActors (Actor_ID a) db') = Ok x /\
             Actor_ID x = Actor_ID a /\ Actor_Fullname x = Actor_Fullname a /\
             Actor_Year x = Actor_Year a /\ Actor_Films x = Actor_Films a /\
             Actor_Girlfriend x = Actor_Girlfriend a) /\
  (forall r, Actor_ID r <> Actor_ID a -> In r (actor db') <-> In r (actor db)) /\
  NoDup (map Actor_ID (actor db')) /\
  movies db' = movies db.
Proof.
  intros Hnd Hid H.
  unfold UpdateActor, bind, ret, db_update_actor, log_stmt, set_actor in H. simpl in H.
  destruct (fault db) eqn:Hf; simpl in H; [discriminate|].
  destruct (find _ _) as [r|] eqn:Hfind; simpl in H; [|discriminate].
  injection H as <- <-.
  apply find_some in Hfind as [Hin Hhit]. cbv beta in Hhit. apply Z.eqb_eq in Hhit.
  match goal with |- context [map ?u (actor db)] => set (upd := u) end.
  assert (Hupd : forall x, Actor_ID (upd x) = Actor_ID x)
    by (intro x; unfold upd; cbv beta; destruct (Actor_ID x =? Actor_ID a); reflexivity).
  assert (Hids : map Actor_ID (map upd (actor db)) = map Actor_ID (actor db))
    by (rewrite map_map; apply map_ext; exact Hupd).
  assert (Ha : upd r = a).
  { unfold upd; cbv beta. rewrite Hhit, Z.eqb_refl. destruct a; reflexivity. }
  assert (Hnd' : NoDup (map Actor_ID (map upd (actor db)))) by now rewrite Hids.
  split; [destruct a; reflexivity|].
  split; [|split; [|split; [exact Hnd'|reflexivity]]].
  - exists a. split; [|repeat split].
    rewrite GetActors_result. simpl.
    replace (Actor_ID a <? 1) with false by (symmetry; apply Z.ltb_ge; lia).
    rewrite (find_key_unique Actor_ID (map upd (actor db)) (upd r) (Actor_ID a) Hnd');
      [now rewrite Ha | now apply in_map | now rewrite Ha].
  - intros x Hx. simpl. split.
    + intro Hin'. apply in_map_iff in Hin' as [y [Hy Hiny]].
      unfold upd in Hy; cbv beta in Hy.
      destruct (Actor_ID y =? Actor_ID a) eqn:Ey.
      * exfalso. apply Hx. rewrite <- Hy. simpl. now apply Z.eqb_eq.
      * rewrite <- Hy. exact Hiny.
    + intro Hinx. replace x with (upd x) by
        (unfold upd; cbv beta; apply Z.eqb_neq in Hx; now rewrite Hx).
      now apply in_map.
Qed.

(* ------------------------------------------------------------------ *)
(** ** The show and delete handlers *)

Lemma existsb_find {A} (f : A -> bool) (l : list A) :
  existsb f l = match find f l with Some _ => true | None => false end.
Proof. induction l as [|a l IH]; simpl; [reflexivity|]. now destruct (f a). Qed.

Lemma count_zero {A} (f : A -> bool) (l : list A) :
  (Z.of_nat (List.length (filter f l)) =? 0) = negb (existsb f l).
Proof.
  induction l as [|a l IH]; simpl; [reflexivity|].
  destruct (f a); simpl; [|exact IH].
  destruct (List.length (filter f l)); reflexivity.
Qed.

(** [showMovieHandler] answers 404 when the id parameter is missing or
    invalid, when the id is below 1 or when no movie has it, 500 when the
    database fails, and 200 when a movie with this id is stored; it changes
    no table. *)
Theorem showMovieHandler_status (db : DB) (idp : option Z) :
  fst (showMovieHandler idp db) =
    match idp with
    | None => notFoundResponse
    | Some id =>
        if id <? 1 then notFoundResponse
        else match fault db with
             | Some _ => serverErrorResponse
             | None => if existsb (fun r => Movie_ID r =? id) (movies db)
                       then statusOK else notFoundResponse
             end
    end /\
  movies (snd (showMovieHandler idp db)) = movies db /\
  actor (snd (showMovieHandler idp db)) = actor db.
Proof.
  destruct idp as [id|]; [|repeat split].
  unfold showMovieHandler, bind. rewrite Get_result. rewrite existsb_find.
  destruct (id <? 1); [repeat split|].
  destruct (fault db); [repeat split|].
  destruct (find _ _); repeat split.
Qed.

(** [showActorHandler], the same for the actors. *)
Theorem showActorHandler_status (db : DB) (idp : option Z) :
  fst (showActorHandler idp db) =
    match idp with
    | None => notFoundResponse
    | Some id =>
        if id <? 1 then notFoundResponse
        else match fault db with
             | Some _ => serverErrorResponse
             | None => if existsb (fun r => Actor_ID r =? id) (actor db)
                       then statusOK else notFoundResponse
             end
    end /\
  movies (snd (showActorHandler idp db)) = movies db /\
  actor (snd (showActorHandler idp db)) = actor db.
Proof.
  destruct idp as [id|]; [|repeat split].
  unfold showActorHandler, bind. rewrite GetActors_result. rewrite existsb_find.
  destruct (id <? 1); [repeat split|].
  destruct (fault db); [repeat split|].
  destruct (find _ _); repeat split.
Qed.

(** [deleteMovieHandler] answers 404 when the id parameter is missing or
    invalid, when the id is below 1 or when no movie has it, 500 when the
    database fails, and 200 when a movie with this id was stored; with an
    id of at least 1 on a working database the movie table loses exactly
    the rows with this id, otherwise it is unchanged. *)
Theorem deleteMovieHandler_status (db : DB) (idp : option Z) :
  fst (deleteMovieHandler idp db) =
    match idp with
    | None => notFoundResponse
    | Some id =>
        if id <? 1 then notFoundResponse
        else match fault db with
             | Some _ => serverErrorResponse
             | None => if existsb (fun r => Movie_ID r =? id) (movies db)
                       then statusOK else notFoundResponse
             end
    end /\
  movies (snd (deleteMovieHandler idp db)) =
    match idp with
    | Some id => if (1 <=? id) && match fault db with None => true | _ => false end
                 then filter (fun r => negb (Movie_ID r =? id)) (movies db)
                 else movies db
    | None => movies db
    end.
Proof.
  destruct idp as [id|]; [|repeat split].
  unfold deleteMovieHandler, Delete, bind, ret.
  destruct (id <? 1) eqn:Hlt.
  - apply Z.ltb_lt in Hlt. replace (1 <=? id) with false
      by (symmetry; apply Z.leb_gt; lia). repeat split.
  - apply Z.ltb_ge in Hlt. replace (1 <=? id) with true
      by (symmetry; apply Z.leb_le; lia).
    unfold db_delete_movie. run_db.
    destruct (fault db) eqn:Hf; simpl; [repeat split|].
    rewrite count_zero. destruct (existsb _ _) eqn:He; simpl.
    + repeat split.
    + repeat split.
Qed.

(** [deleteActorHandler], the same for the actors. *)
Theorem deleteActorHandler_status (db : DB) (idp : option Z) :
  fst (deleteActorHandler idp db) =
    match idp with
    | None => notFoundResponse
    | Some id =>
        if id <? 1 then notFoundResponse
        else match fault db with
             | Some _ => serverErrorResponse
             | None => if existsb (fun r => Actor_ID r =? id) (actor db)
                       then statusOK else notFoundResponse
             end
    end /\
  movies (snd (deleteActorHandler idp db)) = movies db.
Proof.
  destruct idp as [id|]; [|repeat split].
  unfold deleteActorHandler, DeleteActor, bind, ret.
  destruct (id <? 1); [repeat split|].
  unfold db_delete_actor. run_db.
  destruct (fault db); simpl; [repeat split|].
  rewrite count_zero. destruct (existsb _ _); repeat split.
Qed.

(* ------------------------------------------------------------------ *)
(** ** Consecutive pages of a list query *)

Lemma StronglySorted_skipn {A} (R : A -> A -> Prop) (k : nat) (l : list A) :
  StronglySorted R l -> StronglySorted R (skipn k l).
Proof.
  revert l. induction k as [|k IH]; intros [|a l] H; simpl; auto.
  apply StronglySorted_inv in H as [H _]. now apply IH.
Qed.

Lemma StronglySorted_app_before {A} (R : A -> A -> Prop) (l1 l2 : list A) :
  StronglySorted R (l1 ++ l2) -> Forall (fun a => Forall (R a) l2) l1.
Proof.
  induction l1 as [|a l1 IH]; simpl; intros H; [constructor|].
  apply StronglySorted_inv in H as [H1 H2].
  apply Forall_app in H2 as [_ H2]. constructor; auto.
Qed.

Lemma NoDup_map_skipn {A} (key : A -> Z) (k : nat) (l : list A) :
  NoDup (map key l) -> NoDup (map key (skipn k l)).
Proof.
  rewrite <- (firstn_skipn k l) at 1. rewrite map_app. apply NoDup_app_remove_l.
Qed.

Lemma page_pair {A} (s : list A) (n o : nat) :
  firstn n (skipn o s) ++ firstn n (skipn (n + o) s) ++ skipn n (skipn (n + o) s)
  = skipn o s.
Proof. rewrite <- skipn_skipn, firstn_skipn. apply firstn_skipn. Qed.

(** A query run at [OFFSET off] and again at [OFFSET off + lim], both with
    [LIMIT lim] and sort keys ending in the id, over a table with unique
    ids: the two results share no row, and every row of the first sorts no
    later than every row of the second. *)
Lemma select_pages {Row} (row_id : Row -> Z) (col : string -> Row -> option sqlval)
    (col_id : forall r, col "id" r = Some (VInt (row_id r)))
    (cols : list string) (w : Row -> sqlbool) (keys : list (string * string))
    (lim off : Z) (table rows1 rows2 : list Row) :
  In ("id", "ASC") keys -> NoDup (map row_id table) ->
  select_result col cols w keys lim off table rows1 ->
  select_result col cols w keys lim (off + lim) table rows2 ->
  NoDup (map row_id (rows1 ++ rows2)) /\
  Forall (fun a => Forall (order_le col keys a) rows2) rows1.
Proof.
  intros Hin Hnd (_ & Hlim & Hoff & s1 & Hp1 & Hs1 & ->) (_ & _ & _ & s2 & Hp2 & Hs2 & ->).
  assert (Hnds1 : NoDup (map row_id s1)).
  { apply (Permutation_NoDup (Permutation_map row_id (Permutation_sym Hp1))).
    now apply NoDup_map_filter. }
  assert (E : s1 = s2).
  { apply (sorted_unique Row row_id col col_id keys); auto.
    exact (Permutation_trans Hp1 (Permutation_sym Hp2)). }
  subst s2.
  replace (Z.to_nat (off + lim)) with (Z.to_nat lim + Z.to_nat off)%nat
    by (rewrite <- Z2Nat.inj_add by lia; f_equal; lia).
  pose proof (page_pair s1 (Z.to_nat lim) (Z.to_nat off)) as Hpp.
  split.
  - pose proof (NoDup_map_skipn row_id (Z.to_nat off) s1 Hnds1) as H.
    rewrite <- Hpp, !map_app, app_assoc in H. rewrite map_app.
    exact (NoDup_app_remove_r _ _ H).
  - pose proof (StronglySorted_skipn _ (Z.to_nat off) s1 Hs1) as H.
    rewrite <- Hpp in H. apply StronglySorted_app_before in H.
    eapply Forall_impl; [|exact H]. intros a Ha.
    apply Forall_app in Ha. tauto.
Qed.

(** Page [p] and page [p + 1] of the same list query (same page size,
    same sort key) over a table with unique ids share no movie (no
    director), and every row of page [p] sorts no later than every row of
    page [p + 1]: paging through the results never shows a row twice. *)
Theorem list_pages_consecutive (ts_match : string -> string -> sqlbool) (db : DB)
    (title : string) (genres : go_strings) (name surname : string)
    (awords : go_strings) (f : Filters)
    (rows1 rows2 : list Movie) (drows1 drows2 : list Directors) :
  let f' := mkFilters (Page f + 1) (PageSize f) (Sort f) (SortSafelist f) in
  (NoDup (map Movie_ID (movies db)) ->
   GetAll_result ts_match db title genres f rows1 ->
   GetAll_result ts_match db title genres f' rows2 ->
   NoDup (map Movie_ID (rows1 ++ rows2)) /\
   Forall (fun a => Forall (order_le movie_col (list_order_keys f) a) rows2) rows1) /\
  (NoDup (map Directors_ID (directors db)) ->
   GetAllDirectors_result ts_match db name surname awords f drows1 ->
   GetAllDirectors_result ts_match db name surname awords f' drows2 ->
   NoDup (map Directors_ID (drows1 ++ drows2)) /\
   Forall (fun a => Forall (order_le director_col (list_order_keys f) a) drows2)
          drows1).
Proof.
  intros f'.
  assert (Hk : list_order_keys f' = list_order_keys f) by reflexivity.
  assert (Hoff : offset f' = offset f + limit f)
    by (unfold offset, limit, f'; simpl; ring).
  assert (Hlim : limit f' = limit f) by reflexivity.
  assert (Hin : In ("id", "ASC") (list_order_keys f)) by (simpl; auto).
  split.
  - intros Hnd H1 H2. unfold GetAll_result in H1, H2.
    cbn [snd getAll_stmt] in H1, H2.
    rewrite Hk, Hoff, Hlim in H2.
    exact (select_pages Movie_ID movie_col (fun r => eq_refl) _ _ _ _ _ _ _ _
             Hin Hnd (proj2 H1) (proj2 H2)).
  - intros Hnd H1 H2. unfold GetAllDirectors_result in H1, H2.
    cbn [snd getAllDirectors_stmt] in H1, H2.
    rewrite Hk, Hoff, Hlim in H2.
    exact (select_pages Directors_ID director_col (fun r => eq_refl) _ _ _ _ _ _ _ _
             Hin Hnd (proj2 H1) (proj2 H2)).
Qed.

(* ------------------------------------------------------------------ *)
(** ** The create handlers *)

(** When [readJSON] fails, each create handler answers 400 but does not
    return: it still sends the insert statement with the record as
    decoding left it, and then writes a second status, 201 or 500, which
    is ignored (the 400 was sent first).  When the second status is 201,
    the row was created although the client was told 400. *)
Theorem create_handlers_bad_body
    (mc : string -> Z -> Z -> list string -> option string)
    (ac : string -> Z -> string -> list string -> option string)
    (dc : string -> string -> list string -> option string) (db : DB) (seq : Z)
    (mi : MovieInput) (ai : ActorInput) (di : DirectorInput) :
  (exists st, fst (createMovieHandler mc seq mi false db) = [badRequestResponse; st] /\
              (st = statusCreated \/ st = serverErrorResponse)) /\
  effective_status (fst (createMovieHandler mc seq mi false db)) = badRequestResponse /\
  hd_error (sent (snd (createMovieHandler mc seq mi false db))) = Some q_insert_movie /\
  (fst (createMovieHandler mc seq mi false db) = [badRequestResponse; statusCreated] ->
   movies (snd (createMovieHandler mc seq mi false db)) =
     movies db ++ [mkMovie seq (in_Title mi) (in_Year mi) (in_Runtime mi)
                           (in_Genres mi) 1]) /\
  (exists st, fst (createActorHandler ac seq ai false db) = [badRequestResponse; st] /\
              (st = statusCreated \/ st = serverErrorResponse)) /\
  effective_status (fst (createActorHandler ac seq ai false db)) = badRequestResponse /\
  hd_error (sent (snd (createActorHandler ac seq ai false db))) = Some q_insert_actor /\
  (fst (createActorHandler ac seq ai false db) = [badRequestResponse; statusCreated] ->
   actor (snd (createActorHandler ac seq ai false db)) =
     actor db ++ [mkActor seq (ia_Fullname ai) (ia_Year ai) (ia_Films ai)
                          (ia_Girlfriend ai)]) /\
  (exists st, fst (createDirectorHandler dc seq di false db) = [badRequestResponse; st] /\
              (st = statusCreated \/ st = serverErrorResponse)) /\
  effective_status (fst (createDirectorHandler dc seq di false db)) = badRequestResponse /\
  hd_error (sent (snd (createDirectorHandler dc seq di false db))) = Some q_insert_director /\
  (fst (createDirectorHandler dc seq di false db) = [badRequestResponse; statusCreated] ->
   directors (snd (createDirectorHandler dc seq di false db)) =
     directors db ++ [mkDirectors seq (id_Name di) (id_Surname di) (id_Awords di)]).
Proof.
  destruct db as [m0 a0 d0 f0 s0].
  unfold createMovieHandler, createActorHandler, createDirectorHandler,
    Insert, INSERTACTOR, InsertDirector, db_insert_movie, db_insert_actor,
    db_insert_director, bind, ret. simpl.
  destruct f0; [|destruct (mc _ _ _ _), (ac _ _ _ _), (dc _ _ _),
                  (existsb (fun r => Movie_ID r =? seq) m0),
                  (existsb (fun r => Actor_ID r =? seq) a0),
                  (existsb (fun r => Directors_ID r =? seq) d0)];
  repeat split;
  try (eexists; split; [reflexivity | first [left; reflexivity | right; reflexivity]]);
  try (intro H; discriminate H).
Qed.

(* ------------------------------------------------------------------ *)
(** ** The two movie update handlers on a missing movie *)

(** When [Get] reports that the movie does not exist, [updateMovieHandler]
    answers 404 but [updateMovieeHandler] answers 500 (its error switch
    only knows [ErrEditConflict]); neither reads the body any further,
    lets other requests in or sends an update: the database is left as
    [Get] left it. *)
Theorem update_handlers_missing_movie (db : DB) (id : Z) (other : DB -> DB)
    (i : option MovieInput) (p : option MoviePatch) :
  fst (Get id db) = Err ErrRecordNotFound ->
  updateMovieHandler (Some id) i other db = (notFoundResponse, snd (Get id db)) /\
  updateMovieeHandler (Some id) p other db = (serverErrorResponse, snd (Get id db)).
Proof.
  intros H. unfold updateMovieHandler, updateMovieeHandler, bind.
  destruct (Get id db) as [r db1]. simpl in H. subst r. split; reflexivity.
Qed.

(* ------------------------------------------------------------------ *)
(** ** [updateMovieHandler] without interference *)

Lemma find_hit_unique {A} (key : A -> Z) (f : A -> bool) (l : list A) (r : A) (k : Z) :
  NoDup (map key l) -> In r l -> f r = true ->
  (forall x, f x = true -> key x = k) -> find f l = Some r.
Proof.
  induction l as [|a l IH]; simpl; [contradiction|].
  intros Hnd Hin Hr Hk. inversion Hnd as [|? ? Hnotin Hnd']; subst.
  destruct (f a) eqn:Ha.
  - destruct Hin as [->|Hin]; [reflexivity|]. exfalso. apply Hnotin.
    rewrite (Hk a Ha), <- (Hk r Hr). now apply in_map.
  - destruct Hin as [->|Hin]; [congruence|]. now apply IH.
Qed.

(** With no other request in between, [updateMovieHandler] on a stored
    movie (ids unique) and a decoded body answers 200 or 500.  When it
    answers 200, the stored movie has the fields of the body, the same id
    and its version plus one, and the other movies are kept. *)
Theorem updateMovieHandler_success (db : DB) (mv : Movie) (i : MovieInput) :
  1 <= Movie_ID mv -> NoDup (map Movie_ID (movies db)) -> In mv (movies db) ->
  let res := updateMovieHandler (Some (Movie_ID mv)) (Some i) (fun d => d) db in
  (fst res = statusOK \/ fst res = serverErrorResponse) /\
  (fst res = statusOK ->
   In (mkMovie (Movie_ID mv) (in_Title i) (in_Year i) (in_Runtime i) (in_Genres i)
               (Movie_Version mv + 1)) (movies (snd res)) /\
   (forall r, Movie_ID r <> Movie_ID mv -> In r (movies (snd res)) <-> In r (movies db))).
Proof.
  intros Hid Hnd Hin. cbv zeta.
  unfold updateMovieHandler, interleave. unfold bind. rewrite !Get_result.
  replace (Movie_ID mv <? 1) with false by (symmetry; apply Z.ltb_ge; lia).
  destruct (fault db) eqn:Hf.
  { simpl. split; [right; reflexivity | intro H; discriminate H]. }
  rewrite (find_key_unique Movie_ID _ mv _ Hnd Hin eq_refl).
  unfold_update. rewrite Hf.
  rewrite (find_hit_unique Movie_ID _ _ mv (Movie_ID mv) Hnd Hin);
    [| now rewrite !Z.eqb_refl
     | intros x Hx; apply andb_true_iff in Hx as [Hx _]; now apply Z.eqb_eq].
  destruct (Movie_Version mv + 1 >? int32_max).
  { simpl. split; [right; reflexivity | intro H; discriminate H]. }
  simpl. split; [left; reflexivity|]. intros _. split.
  - apply in_map_iff. exists mv. split; [|exact Hin].
    rewrite !Z.eqb_refl. reflexivity.
  - intros x Hx. split.
    + intro Hx'. apply in_map_iff in Hx' as [y [Hy Hiny]].
      destruct ((Movie_ID y =? Movie_ID mv) && (Movie_Version y =? Movie_Version mv))
        eqn:Ey.
      * exfalso. apply Hx. rewrite <- Hy. simpl.
        apply andb_true_iff in Ey as [E _]. now apply Z.eqb_eq.
      * rewrite <- Hy. exact Hiny.
    + intro Hx'. apply in_map_iff. exists x. split; [|exact Hx'].
      apply Z.eqb_neq in Hx. now rewrite Hx.
Qed.

(* ------------------------------------------------------------------ *)
(** ** The sort safelists of the list handlers *)

(** The [SortSafelist] [listDirectorsHandler] sets. *)
Definition director_safelist : list string :=
  ["id"; "name"; "surname"; "-id"; "-name"; "-awords"; "awords"; "-surname";
   "-runtime"].

(** The filters [listMoviesHandler] and [listDirectorsHandler] build from
    the query string ([page], [page_size] and [sort] as read). *)
Definition listMovies_filters (page page_size : Z) (sort : string) : Filters :=
  mkFilters page page_size sort movie_safelist.
Definition listDirectors_filters (page page_size : Z) (sort : string) : Filters :=
  mkFilters page page_size sort director_safelist.

(** The columns [GetAll] and [GetAllDirectors] select, as written in their
    [SELECT] lists. *)
Definition getAll_select : list string :=
  ["id"; "created_at"; "title"; "year"; "runtime"; "genres"; "version"].
Definition getAllDirectors_select : list string := ["id"; "name"; "surname"; "awords"].

(** Every sort key of the movie safelist, its [-] stripped, is a column
    [GetAll] selects.  In the director safelist every key but ["-runtime"]
    is a column [GetAllDirectors] selects; ["-runtime"] sorts by
    [runtime], a column only the movie query selects, and it passes
    [ValidateFilters]. *)
Theorem list_sort_safelists (page page_size : Z) :
  (forall k, In k movie_safelist ->
   In (sortColumn (listMovies_filters page page_size k)) getAll_select) /\
  (forall k, In k director_safelist ->
   In (sortColumn (listDirectors_filters page page_size k)) getAllDirectors_select <->
   k <> "-runtime") /\
  sortColumn (listDirectors_filters page page_size "-runtime") = "runtime" /\
  In "runtime" getAll_select /\
  ValidateFilters (listDirectors_filters 1 20 "-runtime") = true.
Proof.
  split; [|split; [|split; [|split]]].
  - intros k Hk. simpl in Hk.
    repeat (destruct Hk as [<-|Hk]; [simpl; auto 10|]). contradiction.
  - intros k Hk. simpl in Hk.
    repeat (destruct Hk as [<-|Hk];
            [split; [intros _; discriminate | intros _; simpl; auto 10] |]).
    destruct Hk as [<-|[]]. split.
    + intro H. simpl in H. repeat (destruct H as [H|H]; [discriminate H|]). destruct H.
    + intro H. exfalso. apply H. reflexivity.
  - reflexivity.
  - simpl. auto 10.
  - reflexivity.
Qed.

(* ------------------------------------------------------------------ *)
(** ** Witnesses on small databases *)

Lemma dune_ids_NoDup : NoDup (map Movie_ID (movies db_dune)).
Proof. constructor; [simpl; tauto | constructor]. Qed.

Lemma dune_fresh_2 : Forall (fun r => Movie_ID r <> 2) (movies db_dune).
Proof. constructor; [simpl; discriminate | constructor]. Qed.

Lemma actor_ids_NoDup : NoDup (map Actor_ID (actor db_actor)).
Proof. constructor; [simpl; tauto | constructor]. Qed.

Lemma actor_fresh_2 : Forall (fun r => Actor_ID r <> 2) (actor db_actor).
Proof. constructor; [simpl; discriminate | constructor]. Qed.

Definition moss : Actor := mkActor 0 "Carrie-Anne Moss" 1967 ["The Matrix"] "none".
Definition villeneuve : Directors := mkDirectors 0 "Denis" "Villeneuve" ["Cesar"].
Definition wick : Actor := mkActor 1 "Keanu Reeves" 1964 ["John Wick"] "none".
Definition villeneuve_input : DirectorInput :=
  mkDirectorInput "Denis" "Villeneuve" ["Cesar"].

Lemma Delete_then_Get_witness :
  fault db_dune = None /\
  fst (Get 1 (snd (Delete 1 db_dune))) = Err ErrRecordNotFound.
Proof. split; [reflexivity|]. exact (proj1 (Delete_then_Get db_dune 1 eq_refl)). Defined.

Lemma Update_then_Get_witness :
  Update dune db_dune =
    ((mkMovie 1 "Dune" 2021 155 ["sci-fi"] 2, None), snd (Update dune db_dune)) /\
  fst (Get 1 (snd (Update dune db_dune))) = Ok (mkMovie 1 "Dune" 2021 155 ["sci-fi"] 2).
Proof.
  split; [reflexivity|].
  destruct (Update_then_Get db_dune dune (mkMovie 1 "Dune" 2021 155 ["sci-fi"] 2)
              (snd (Update dune db_dune)) dune_ids_NoDup (Z.le_refl 1) eq_refl)
    as ([m [Hm (Hi & Ht & Hy & Hr & Hg & Hv)]] & _).
  change (fst (Get (Movie_ID dune) (snd (Update dune db_dune))) =
          Ok (mkMovie 1 "Dune" 2021 155 ["sci-fi"] 2)).
  rewrite Hm. destruct m. simpl in *. subst. reflexivity.
Defined.

(** No column constraint is violated. *)
Definition movie_ok (_ : string) (_ _ : Z) (_ : list string) : option string := None.
Definition actor_ok (_ : string) (_ : Z) (_ : string) (_ : list string) : option string :=
  None.
Definition director_ok (_ _ : string) (_ : list string) : option string := None.

Lemma Insert_then_Get_witness :
  Insert movie_ok 2 movieA db_dune =
    ((mkMovie 2 "Alien" 1979 117 ["horror"] 1, None),
     snd (Insert movie_ok 2 movieA db_dune)) /\
  fst (Get 2 (snd (Insert movie_ok 2 movieA db_dune))) =
    Ok (mkMovie 2 "Alien" 1979 117 ["horror"] 1).
Proof.
  split; [reflexivity|].
  assert (H2 : 1 <= 2) by lia.
  exact (proj2 (proj2 (proj2 (proj2
           (Insert_then_Get movie_ok db_dune 2 movieA (mkMovie 2 "Alien" 1979 117 ["horror"] 1)
              (snd (Insert movie_ok 2 movieA db_dune)) H2 dune_ids_NoDup eq_refl))))).
Defined.

Lemma Insert_Update_stale_witness :
  Insert movie_ok 2 movieA db_dune =
    ((mkMovie 2 "Alien" 1979 117 ["horror"] 1, None),
     snd (Insert movie_ok 2 movieA db_dune)) /\
  Update (mkMovie 2 "Alien" 1980 117 ["horror"] 1) (snd (Insert movie_ok 2 movieA db_dune)) =
    ((mkMovie 2 "Alien" 1980 117 ["horror"] 2, None),
     snd (Update (mkMovie 2 "Alien" 1980 117 ["horror"] 1)
                 (snd (Insert movie_ok 2 movieA db_dune)))) /\
  snd (fst (Update (mkMovie 2 "Alien" 1980 117 ["horror"] 1)
                   (snd (Update (mkMovie 2 "Alien" 1980 117 ["horror"] 1)
                                (snd (Insert movie_ok 2 movieA db_dune)))))) =
    Some ErrEditConflict.
Proof.
  split; [reflexivity|]. split; [reflexivity|].
  exact (proj2 (Insert_Update_stale movie_ok db_dune 2 movieA
                  (mkMovie 2 "Alien" 1979 117 ["horror"] 1)
                  (snd (Insert movie_ok 2 movieA db_dune)) "Alien" 1980 117 ["horror"]
                  (mkMovie 2 "Alien" 1980 117 ["horror"] 2)
                  (snd (Update (mkMovie 2 "Alien" 1980 117 ["horror"] 1)
                               (snd (Insert movie_ok 2 movieA db_dune))))
                  eq_refl eq_refl)).
Defined.

Lemma Insert_failure_witness :
  fault (mkDB [] [] [] (Some "connection refused") []) = Some "connection refused" /\
  snd (fst (Insert movie_ok 1 movieA (mkDB [] [] [] (Some "connection refused") []))) =
    Some (ErrDriver "connection refused").
Proof.
  split; [reflexivity|].
  exact (proj1 (proj1 (Insert_failure movie_ok actor_ok director_ok
                         (mkDB [] [] [] (Some "connection refused") []) 1)
                  "connection refused" eq_refl) movieA).
Defined.

Lemma INSERTACTOR_then_GetActors_witness :
  INSERTACTOR actor_ok 2 moss db_actor =
    ((mkActor 2 "Carrie-Anne Moss" 1967 ["The Matrix"] "none", None),
     snd (INSERTACTOR actor_ok 2 moss db_actor)) /\
  fst (GetActors 2 (snd (INSERTACTOR actor_ok 2 moss db_actor))) =
    Ok (mkActor 2 "Carrie-Anne Moss" 1967 ["The Matrix"] "none").
Proof.
  split; [reflexivity|].
  assert (H2 : 1 <= 2) by lia.
  exact (proj2 (proj2 (proj2 (proj2 (proj2
           (INSERTACTOR_then_GetActors actor_ok db_actor 2 moss
              (mkActor 2 "Carrie-Anne Moss" 1967 ["The Matrix"] "none")
              (snd (INSERTACTOR actor_ok 2 moss db_actor)) H2 actor_ids_NoDup eq_refl)))))).
Defined.

Lemma InsertDirector_fresh_witness :
  InsertDirector director_ok 1 villeneuve db_dune =
    ((mkDirectors 1 "Denis" "Villeneuve" ["Cesar"], None),
     snd (InsertDirector director_ok 1 villeneuve db_dune)) /\
  directors (snd (InsertDirector director_ok 1 villeneuve db_dune)) =
    [mkDirectors 1 "Denis" "Villeneuve" ["Cesar"]].
Proof.
  split; [reflexivity|].
  exact (proj1 (proj2 (proj2
           (InsertDirector_fresh director_ok db_dune 1 villeneuve
              (mkDirectors 1 "Denis" "Villeneuve" ["Cesar"])
              (snd (InsertDirector director_ok 1 villeneuve db_dune))
              (NoDup_nil _) eq_refl)))).
Defined.

Lemma UpdateActor_then_GetActors_witness :
  UpdateActor wick db_actor = ((wick, None), snd (UpdateActor wick db_actor)) /\
  fst (GetActors 1 (snd (UpdateActor wick db_actor))) = Ok wick.
Proof.
  split; [reflexivity|].
  destruct (UpdateActor_then_GetActors db_actor wick wick
              (snd (UpdateActor wick db_actor)) actor_ids_NoDup (Z.le_refl 1) eq_refl)
    as (_ & [x [Hx (Hi & Hn & Hy & Hf & Hg)]] & _).
  change (fst (GetActors (Actor_ID wick) (snd (UpdateActor wick db_actor))) = Ok wick).
  rewrite Hx. destruct x. simpl in *. subst. reflexivity.
Defined.

Lemma create_handlers_bad_body_witness :
  effective_status (fst (createMovieHandler movie_ok 2 dune_input false db_dune)) =
    badRequestResponse /\
  fst (createMovieHandler movie_ok 2 dune_input false db_dune) =
    [badRequestResponse; statusCreated] /\
  movies (snd (createMovieHandler movie_ok 2 dune_input false db_dune)) =
    [dune; mkMovie 2 "Dune" 2021 156 ["sci-fi"] 1].
Proof.
  destruct (create_handlers_bad_body movie_ok actor_ok director_ok db_dune 2 dune_input
              (mkActorInput "Keanu Reeves" 1964 ["John Wick"] "none") villeneuve_input)
    as (_ & H1 & _ & H2 & _).
  assert (H3 : fst (createMovieHandler movie_ok 2 dune_input false db_dune) =
               [badRequestResponse; statusCreated]) by reflexivity.
  split; [exact H1|]. split; [exact H3|]. exact (H2 H3).
Defined.

Lemma update_handlers_missing_movie_witness :
  fst (Get 2 db_dune) = Err ErrRecordNotFound /\
  fst (updateMovieHandler (Some 2) (Some dune_input) (fun d => d) db_dune) =
    notFoundResponse /\
  fst (updateMovieeHandler (Some 2) (Some dune_patch) (fun d => d) db_dune) =
    serverErrorResponse.
Proof.
  split; [reflexivity|].
  destruct (update_handlers_missing_movie db_dune 2 (fun d => d)
              (Some dune_input) (Some dune_patch) eq_refl) as [H1 H2].
  rewrite H1, H2. split; reflexivity.
Defined.

Lemma updateMovieHandler_success_witness :
  NoDup (map Movie_ID (movies db_dune)) /\
  fst (updateMovieHandler (Some 1) (Some dune_input) (fun d => d) db_dune) = statusOK /\
  In (mkMovie 1 "Dune" 2021 156 ["sci-fi"] 2)
     (movies (snd (updateMovieHandler (Some 1) (Some dune_input) (fun d => d) db_dune))).
Proof.
  split; [exact dune_ids_NoDup|].
  assert (H : fst (updateMovieHandler (Some 1) (Some dune_input) (fun d => d) db_dune)
              = statusOK) by reflexivity.
  split; [exact H|].
  exact (proj1 (proj2 (updateMovieHandler_success db_dune dune dune_input
                         (Z.le_refl 1) dune_ids_NoDup (or_introl eq_refl)) H)).
Defined.
